(* ===== verification/_CoqProject ===== *)
-Q . S2P
Prelude.v
Async.v
JsNumber.v
Gemini.v
RetryLoop.v
Render.v
App.v
Header.v
BookingModal.v
Pricing.v
TripForm.v
View.v
TripRuns.v
Phases.v
