(* ===== verification/Prelude.v ===== *)
(** * Nerza Agency: a verification development of the trip-booking front end

    The repository is a React/TypeScript single page for a travel agency.
    Its logic (as opposed to its markup) lives in four places:

    - [src/services/geminiService.ts]: the resilient client of the hosted
      text-generation API.  [generateContentWithRetry] calls the API and,
      on a rate-limit error ("429" / "RESOURCE_EXHAUSTED" in the error
      text), sleeps [delay + Math.random()*500] ms and retries with one
      retry less and twice the delay; [generateWithFallback] returns a
      fixed text when no API key is configured or when the call fails;
      [generateAgencyContent] (tagline) and [generateItinerary] (prompt
      builder + call, with its own key-less fallback and its own error)
      are the two call sites.
    - [src/components/ServicesSection.tsx]: [calculatePrice] (pricing
      rules) and the [ServicesSection] component, an interactive form whose
      [useState] hooks form the session state and whose handlers
      ([handleSubmit], [handleReset], [handleFullReset],
      [handleConfirmBooking], [handleInterestChange], the region effect,
      the duration input's [onChange]) are its transitions.
    - [src/docs/components/BookingFinalizationModal.tsx] and
      [src/components/BookingModal.tsx]: simulated payment dialogs whose
      [setTimeout] callbacks confirm the booking (the second one is not
      rendered by any component).
    - [src/docs/App.tsx] and [src/components/Header.tsx]: the page that
      loads the tagline and the header's image carousel.

    ** Files (in dependency order, see _CoqProject)

    - [Prelude]   (this file) the JavaScript built-ins the code relies on,
      on byte strings and rationals: [String.prototype.includes], [trim],
      [Array.prototype.join], [Math.round]; shared tactics and the [nerza]
      hint database.
    - [Async]     a free monad [Async] of the effects the service performs
      ([generateContent] calls, [Math.random] draws, [setTimeout] sleeps,
      console logs), [try/catch] as [tryCatch], and its interpretation
      [run] against an oracle for the API and the random source (a
      Section with the oracle as Variables).
    - [JsNumber]  [parseInt(s, 10)], [String(n)] and [toFixed(2)] on
      integers, and the round trip between the first two.
    - [Gemini]    Module [GeminiService]: [src/services/geminiService.ts]
      function by function ([generateContentWithRetry], a structural
      Fixpoint on [retries]; [generateWithFallback];
      [generateAgencyContent]; the prompt builder and
      [generateItinerary]).  Module [GeminiRuns]: concrete API behaviours.
    - [RetryLoop] Module [RetryLoop]: the explicit bounded retry loop that
      section 9 of the specification asks for ([RetryPolicy],
      [bounded_loop], [attempt_body], [generateWithRetry]), written from
      the specification, and its equivalence with the recursive code.
    - [Render]    Module [Render]: the itinerary view's HTML (line 244 of
      [ServicesSection.tsx]): [String.prototype.replace] with the two
      global regular expressions, as a loop that tries a matcher at each
      position (greedy and lazy groups, ECMAScript line terminators).
    - [App]       Module [App]: the page of [src/docs/App.tsx], its three
      hooks and [fetchContent] as an [Async] program.  The class
      [ContentService] is what the page needs of its content source (a
      request that always resolves); the Gemini service is an instance.
    - [Header]    Module [Header]: [SERVICES] of [src/constants.ts] and the
      carousel of [src/components/Header.tsx] (the interval callback
      [tick], the spinner/tagline switch).
    - [BookingModal] Module [BookingModal]: the service booking dialog of
      [src/components/BookingModal.tsx] (its hook, inputs, 2 s payment
      timer and callbacks), with the browser's constraint validation as a
      section parameter; no component of the repository renders it.
    - [Pricing]   Module [Pricing]: [calculatePrice] of
      [src/components/ServicesSection.tsx].
    - [TripForm]  Module [TripForm]: the [ServicesSection] component and
      the [BookingFinalizationModal] it renders, as a state machine:
      [State] is the hooks plus the pending continuations (the awaited
      request and the two [setTimeout] callbacks), [step] one user or
      environment event guarded by the JSX that renders the control,
      [reachable] its closure from [init]; the invariant [inv] is proved
      by rule induction.
    - [View]      Module [View]: the markup of the page as trees of
      nodes (tag, the attributes that carry content or behaviour, click
      handler, children): [LoadingSpinner], [About], [Footer],
      [ConfirmationBanner], [ServiceCard], the header ([HeaderView], its
      carousel [carousel_from]), the page ([AppView]), the finalisation
      dialog ([BookingFinalizationModal]) and the overlays of the form
      ([overlays]), whose handlers are events of [TripForm.step];
      [shown_backgrounds] is what the header shows.
    - [TripRuns]  concrete executions of [step], evaluated by [vm_compute]:
      the four traces behind the findings, and the instances (witnesses)
      of the form's theorems at reachable states.
    - [Phases]    Module [Phases]: the six-phase machine of section 4.4 of
      the specification ([spec_step], written from the specification),
      the phase the page displays ([phase_of], read off the JSX
      conditions), and [patient], the runs in which the user acts only
      when nothing is pending.

    ** Theorem groups

    - Retry loop (Gemini): for every answer sequence of the API, the
      outcome, the calls, the draws and the exact waits of
      [generateContentWithRetry]; termination within [retries + 1] calls;
      the bounds of the waits it sleeps ([delay*2^i <= w_i < delay*2^i +
      500], 7000 to 8500 ms in all with the defaults).
    - Call sites (Gemini, App): [generateWithFallback] never rejects, the
      key-less paths, the single error [generateItinerary] raises, the
      page never shows its error message.
    - Pricing: the price is exactly [6600], [8960] or [12650] times the
      duration (no rounding happens).
    - Form (TripForm): the invariant of every reachable state (interests
      valid for the region, duration at least one day, a price only with
      an itinerary), the effect of each handler on every branch (the
      interest toggle, the region controls, the submission, the reset).
    - Booking dialog (BookingModal): in every reachable state at most one
      payment timer runs, exactly while submitting; in every run the
      confirmations plus the running timers are the submissions.
    - Executions (TripRuns, Gemini): the traces of the findings (a booking with blank contact details, two
      requests in flight, a price for another duration, a payment that
      closing the dialog does not cancel, a 400 error retried as 429).
    - Rendering (Render): headings and bold spans as the code means them,
      and the unescaped injection of the API's text; the fuel lemma
      [replace_all_enough] justifies the fuel of the replace loops.
    - Refinement (Phases): in a patient run every step of the form keeps
      the phase, takes a transition of the specification, or one of the
      two the code adds (change destination, close the dialog); every
      transition of the specification is taken by some patient run.  The
      traces of [TripRuns] are impatient runs, which is where the code
      leaves the specification.
    - Carousel (Header, View): every image is shown again within eight
      ticks; in the rendered header, after [n] ticks, exactly one
      background is visible, that of service [n mod 8].
    - Equivalence (RetryLoop): the loop of the specification with
      [retries + 1] attempts, multiplier 2 and jitter range 500 and the
      recursive [generateContentWithRetry] settle with the same outcome
      after the same calls, draws and sleeps, from related worlds
      ([same_obs]: equal calls, draws and sleeps; the console is not
      compared), by induction on [retries] with one unfolding lemma per
      side.
    - Types (TripForm): every request in flight is well typed as the code
      declares and the specification requires ([request_typed]: a Budget
      literal, Interest literals of its region, a duration of at least
      one day), and carries the tier and duration it will be priced with.

    ** Modelling choices, bounds and fuel

    - JavaScript numbers: durations and prices are integers, modelled in
      [Z]; the intermediate pricing values, the jitter and the wait times
      are modelled exactly in [Q].  IEEE-754 rounding is not modelled: all
      values of the pricing formula are exact integers far below 2^53 for
      realistic durations, and the delays 1000, 2000, 4000 are exact.
    - Fuel: the retry recursion decreases [retries] (3 by default) and is
      a structural Fixpoint; the timers are events of the state machine,
      and a run of the form is a finite list of events.  The only fuel is
      that of the [replace] loop of [Render], [length s + 1] steps, which
      is enough because every match consumes input ([replace_all_enough]).
    - Strings are Stdlib [string]s of bytes (UTF-8 for the French texts);
      the JavaScript whitespace set is modelled on its ASCII members.
    - Errors are JavaScript values whose [toString()] is what the code
      inspects; an error is modelled by that string.
    - The API and [Math.random] are oracles ([nat -> ...]) indexed by the
      number of calls and draws so far: every theorem on the service holds
      for all of them.

    ** Not modelled

    - Styling: class names, fixed inline styles and the paths of the svg
      icons; the [Intl.NumberFormat] currency formatting of the dialog is
      a parameter [formatMAD].
    - The form's own markup (region buttons, fields, itinerary view) as
      nodes: its controls are modelled by the guards of [TripForm.step]
      ([region_buttons_shown], [fields_shown], [itinerary_view_shown]),
      and the itinerary's HTML by [Render].  The markup of
      [BookingModal], which no component renders, likewise.
    - [ServiceCard] is modelled but rendered by no component of the
      repository; the import paths of [src/docs/App.tsx] do not match the
      layout of the files, which the model takes as intended.
    - Theorems about the markup of [View] beyond the carousel: the
      controls of the dialog and the banner are already the guards of
      [TripForm.step], read off the same JSX conditions, so stating their
      agreement would compare two transcriptions of the same code.
    - The SDK [@google/genai] itself: only its [generateContent] call is
      an effect, answered by the oracle. *)

From Stdlib Require Import String Ascii ZArith QArith Qround Qfield List Bool Lia Lqa.
Import ListNotations.

Declare Scope nerza_scope.
Delimit Scope nerza_scope with nerza.

Create HintDb nerza.
Create Rewrite HintDb nerza_rw.

(** ** Shared tactics *)

Ltac inv H := inversion H; subst; clear H.

(** Case analysis on the first [if] of the goal, keeping the equation. *)
Ltac case_if :=
  match goal with
  | |- context [if ?b then _ else _] =>
      let E := fresh "Eif" in destruct b eqn:E
  end.

(** ** JavaScript built-ins *)
Module Js.

Local Open Scope string_scope.

(** [s.includes(t)]: [t] occurs in [s] at some position. *)
Fixpoint includes (s t : string) : bool :=
  String.prefix t s ||
  match s with
  | EmptyString => false
  | String _ s' => includes s' t
  end.

(** The ASCII members of WhiteSpace and LineTerminator: TAB, LF, VT, FF,
    CR and SPACE. *)
Definition is_space (c : ascii) : bool :=
  let n := nat_of_ascii c in ((9 <=? n) && (n <=? 13))%nat || (n =? 32)%nat.

Fixpoint drop_spaces (l : list ascii) : list ascii :=
  match l with
  | [] => []
  | c :: l' => if is_space c then drop_spaces l' else l
  end.

(** [s.trim()]: leading and trailing whitespace removed. *)
Definition trim (s : string) : string :=
  string_of_list_ascii
    (rev (drop_spaces (rev (drop_spaces (list_ascii_of_string s))))).

(** [arr.join(sep)] on an array of strings. *)
Fixpoint join (sep : string) (l : list string) : string :=
  match l with
  | [] => EmptyString
  | [x] => x
  | x :: l' => x ++ sep ++ join sep l'
  end.

(** [Math.round(x)]: the integer nearest to [x], halves rounded up. *)
Definition round (x : Q) : Z := Qfloor (x + (1 # 2)).

(** The truthiness of a string (the empty string is falsy). *)
Definition truthy_string (s : string) : bool := negb (String.eqb s EmptyString).

End Js.

Infix "∋" := Js.includes (at level 70) : nerza_scope.

(** ** Lemmas on the built-ins *)

Section JsLemmas.
Local Open Scope string_scope.

Lemma includes_prefix (s t : string) :
  String.prefix t s = true -> Js.includes s t = true.
Proof. destruct s; simpl; intros ->; reflexivity. Qed.

Lemma includes_cons (c : ascii) (s t : string) :
  Js.includes s t = true -> Js.includes (String c s) t = true.
Proof. simpl. intros ->. apply orb_true_r. Qed.

Lemma prefix_app (s t : string) : String.prefix s (s ++ t) = true.
Proof.
  induction s as [|c s IH]; simpl.
  - destruct t; reflexivity.
  - destruct (ascii_dec c c) as [_|n]; [exact IH | contradiction].
Qed.

(** Whatever precedes and follows it, [t] is included in [u ++ t ++ v]. *)
Lemma includes_app (u t v : string) : Js.includes (u ++ t ++ v) t = true.
Proof.
  induction u as [|c u IH]; simpl.
  - apply includes_prefix, prefix_app.
  - rewrite IH. apply orb_true_r.
Qed.

Lemma forallb_drop_spaces (l : list ascii) :
  forallb Js.is_space (Js.drop_spaces l) = forallb Js.is_space l.
Proof.
  induction l as [|c l IH]; simpl; [reflexivity|].
  destruct (Js.is_space c) eqn:E; simpl; rewrite ?E; auto.
Qed.

Lemma drop_spaces_nil_iff (l : list ascii) :
  Js.drop_spaces l = [] <-> forallb Js.is_space l = true.
Proof.
  induction l as [|c l IH]; simpl; [tauto|].
  destruct (Js.is_space c); simpl; [exact IH|].
  split; discriminate.
Qed.

Lemma forallb_rev {A} (f : A -> bool) (l : list A) :
  forallb f (rev l) = forallb f l.
Proof.
  induction l as [|x l IH]; simpl; [reflexivity|].
  rewrite forallb_app, IH. simpl. rewrite andb_true_r. apply andb_comm.
Qed.

Lemma string_of_list_ascii_nil (l : list ascii) :
  string_of_list_ascii l = EmptyString <-> l = [].
Proof. destruct l; simpl; split; congruence. Qed.

(** [s.trim()] is empty exactly when every character of [s] is blank. *)
Lemma trim_empty_iff (s : string) :
  Js.trim s = EmptyString <-> forallb Js.is_space (list_ascii_of_string s) = true.
Proof.
  unfold Js.trim. rewrite string_of_list_ascii_nil.
  split.
  - intros H. apply (f_equal (@rev ascii)) in H. rewrite rev_involutive in H.
    apply drop_spaces_nil_iff in H.
    rewrite forallb_rev, forallb_drop_spaces in H. exact H.
  - intros H. rewrite <- (forallb_drop_spaces (list_ascii_of_string s)),
      <- forallb_rev, <- drop_spaces_nil_iff in H.
    rewrite H. reflexivity.
Qed.

Lemma append_EmptyString (t : string) : t ++ EmptyString = t.
Proof. induction t as [|c t IH]; simpl; [reflexivity | rewrite IH; reflexivity]. Qed.

(** [Qfloor] is determined by the unit interval it falls in. *)
Lemma Qfloor_unique (x : Q) (n : Z) :
  (inject_Z n <= x < inject_Z n + 1)%Q -> Qfloor x = n.
Proof.
  intros [H1 H2]. pose proof (Qfloor_le x) as F1. pose proof (Qlt_floor x) as F2.
  rewrite inject_Z_plus in F2.
  assert (A : (Qfloor x < n + 1)%Z).
  { rewrite Zlt_Qlt, inject_Z_plus. change (inject_Z 1) with 1. lra. }
  assert (B : (n < Qfloor x + 1)%Z).
  { rewrite Zlt_Qlt, inject_Z_plus. change (inject_Z 1) with 1 in *. lra. }
  lia.
Qed.

(** [Math.round(x)] is [n] on the interval [[n - 1/2, n + 1/2)]. *)
Lemma round_spec (x : Q) (n : Z) :
  (inject_Z n - (1 # 2) <= x < inject_Z n + (1 # 2))%Q -> Js.round x = n.
Proof. intros H. unfold Js.round. apply Qfloor_unique. lra. Qed.

Lemma round_inject_Z (n : Z) : Js.round (inject_Z n) = n.
Proof. apply round_spec. lra. Qed.

(** [Math.round] of a rational equal to an integer is that integer. *)
Lemma round_Qeq (x : Q) (n : Z) : (x == inject_Z n)%Q -> Js.round x = n.
Proof. intros H. apply round_spec. rewrite H. lra. Qed.

End JsLemmas.

#[export] Hint Resolve includes_app includes_prefix includes_cons : nerza.
#[export] Hint Rewrite round_inject_Z append_EmptyString : nerza_rw.
