(* ===== verification/Async.v ===== *)
(** * Async: the effects of [src/services/geminiService.ts]

    The service is written with [async]/[await]; the only things it awaits
    are the API call [ai.models.generateContent(params)] and [setTimeout]
    sleeps, and it also draws [Math.random()] and writes to the console.
    [Async A] is the free monad over exactly these effects: a finite tree
    whose leaves are a resolved value ([Ret]) or a thrown error ([Throw]).
    [bind] is [await] in sequence, [tryCatch] is [try { .. } catch].

    [run] interprets a program against an oracle: [api i p] is the outcome
    of the [i]-th API call (made with parameters [p]), [rnd j] the [j]-th
    value of [Math.random()].  The world records the calls made, the
    number of random draws, the sleeps and the console, in order. *)

From Stdlib Require Import String ZArith QArith List Lia Lqa.
From S2P Require Import Prelude.
Import ListNotations.

(** ** JavaScript values the service handles *)

(** A thrown value, by its [toString()]: the only thing the code reads of
    an error ([error.toString()] in [generateContentWithRetry]). *)
Record JsError := mkError { toString : string }.

(** [new Error(message)]: its [toString()] is ["Error: " + message]. *)
Definition new_Error (message : string) : JsError :=
  mkError ("Error: " ++ message)%string.

(** The outcome of a promise. *)
Inductive Settled (A : Type) : Type :=
| Fulfilled (a : A)
| Rejected (e : JsError).
Arguments Fulfilled {A}.
Arguments Rejected {A}.

(** The argument of [ai.models.generateContent]:
    [{ model, contents, config: { temperature } }]. *)
Record GenerateParams := mkParams {
  model : string;
  contents : string;
  temperature : Q
}.

(** [GenerateContentResponse], of which the code reads [.text]. *)
Record GenerateContentResponse := mkResponse { text : string }.

(** A console line: [console.warn(message)] or
    [console.error(message, error)]. *)
Inductive ConsoleEntry :=
| Warn (message : string)
| ErrorLog (message : string) (error : JsError).

(** ** The effect monad *)

Inductive Async (A : Type) : Type :=
| Ret (a : A)
| Throw (e : JsError)
| Generate (p : GenerateParams) (k : Settled GenerateContentResponse -> Async A)
| Random (k : Q -> Async A)
| Sleep (ms : Q) (k : Async A)
| Log (entry : ConsoleEntry) (k : Async A).
Arguments Ret {A}.
Arguments Throw {A}.
Arguments Generate {A}.
Arguments Random {A}.
Arguments Sleep {A}.
Arguments Log {A}.

Fixpoint bind {A B} (m : Async A) (f : A -> Async B) : Async B :=
  match m with
  | Ret a => f a
  | Throw e => Throw e
  | Generate p k => Generate p (fun r => bind (k r) f)
  | Random k => Random (fun x => bind (k x) f)
  | Sleep ms k => Sleep ms (bind k f)
  | Log l k => Log l (bind k f)
  end.

(** [try { m } catch (error) { h(error) }]: errors thrown by [h] are not
    caught again. *)
Fixpoint tryCatch {A} (m : Async A) (h : JsError -> Async A) : Async A :=
  match m with
  | Ret a => Ret a
  | Throw e => h e
  | Generate p k => Generate p (fun r => tryCatch (k r) h)
  | Random k => Random (fun x => tryCatch (k x) h)
  | Sleep ms k => Sleep ms (tryCatch k h)
  | Log l k => Log l (tryCatch k h)
  end.

Declare Scope async_scope.
Delimit Scope async_scope with async.
Notation "x <- m ;; k" := (bind m (fun x => k))
  (at level 61, m at next level, right associativity) : async_scope.
Notation "m ;; k" := (bind m (fun _ => k))
  (at level 61, right associativity) : async_scope.

(** The primitive operations. *)
Definition generateContent (p : GenerateParams) : Async GenerateContentResponse :=
  Generate p (fun r => match r with Fulfilled x => Ret x | Rejected e => Throw e end).
Definition math_random : Async Q := Random Ret.
Definition sleep (ms : Q) : Async unit := Sleep ms (Ret tt).
Definition log (l : ConsoleEntry) : Async unit := Log l (Ret tt).

(** ** Interpretation *)

Record World := mkWorld {
  calls : list GenerateParams;
  draws : nat;
  sleeps : list Q;
  console : list ConsoleEntry
}.

Definition world0 : World := mkWorld [] 0 [] [].

Section Run.
Variable api : nat -> GenerateParams -> Settled GenerateContentResponse.
Variable rnd : nat -> Q.

Fixpoint run {A} (m : Async A) (w : World) : Settled A * World :=
  match m with
  | Ret a => (Fulfilled a, w)
  | Throw e => (Rejected e, w)
  | Generate p k =>
      run (k (api (length (calls w)) p))
          (mkWorld (calls w ++ [p]) (draws w) (sleeps w) (console w))
  | Random k =>
      run (k (rnd (draws w)))
          (mkWorld (calls w) (S (draws w)) (sleeps w) (console w))
  | Sleep ms k =>
      run k (mkWorld (calls w) (draws w) (sleeps w ++ [ms]) (console w))
  | Log l k =>
      run k (mkWorld (calls w) (draws w) (sleeps w) (console w ++ [l]))
  end.

Lemma run_bind {A B} (m : Async A) (f : A -> Async B) (w : World) :
  run (bind m f) w =
  match run m w with
  | (Fulfilled a, w') => run (f a) w'
  | (Rejected e, w') => (Rejected e, w')
  end.
Proof.
  revert w; induction m; intros w; simpl; auto.
Qed.

Lemma run_tryCatch {A} (m : Async A) (h : JsError -> Async A) (w : World) :
  run (tryCatch m h) w =
  match run m w with
  | (Fulfilled a, w') => (Fulfilled a, w')
  | (Rejected e, w') => run (h e) w'
  end.
Proof.
  revert w; induction m; intros w; simpl; auto.
Qed.

End Run.
