(* ===== verification/JsNumber.v ===== *)
(** * JsNumber: the number/string conversions the code performs

    - [parseInt(s, 10)] (the duration input's [onChange] in
      [src/components/ServicesSection.tsx]) as [parseInt10], with [None]
      standing for [NaN];
    - [Number.prototype.toString()] on integers (the [${duration}] and
      [${retries}] template holes of [src/services/geminiService.ts]) as
      [numberToString];
    - [Number.prototype.toFixed(2)] (the retry warning) as [toFixed2].

    Numbers are integers in [Z] (rationals in [Q] for [toFixed2]); the
    double-precision limits (2^53, exponent notation from 1e21 on) are out
    of the model, see the root header.  The main result is the round trip
    [parseInt10 (numberToString n ++ s) = Some n] when [s] does not start
    with a digit. *)

From Stdlib Require Import String Ascii Decimal DecimalZ DecimalPos ZArith QArith Qabs List Lia.
From S2P Require Import Prelude.
Import ListNotations.
Local Open Scope string_scope.

Module JsNumber.

(** The digit constructor of a decimal digit character. *)
Definition digit (c : ascii) : option (uint -> uint) :=
  match c with
  | "0"%char => Some D0 | "1"%char => Some D1 | "2"%char => Some D2
  | "3"%char => Some D3 | "4"%char => Some D4 | "5"%char => Some D5
  | "6"%char => Some D6 | "7"%char => Some D7 | "8"%char => Some D8
  | "9"%char => Some D9
  | _ => None
  end.

(** The longest prefix of decimal digits, and the rest of the string. *)
Fixpoint digits_prefix (s : string) : uint * string :=
  match s with
  | String c s' =>
      match digit c with
      | Some d => let (u, r) := digits_prefix s' in (d u, r)
      | None => (Nil, s)
      end
  | EmptyString => (Nil, EmptyString)
  end.

Fixpoint skip_spaces (s : string) : string :=
  match s with
  | String c s' => if Js.is_space c then skip_spaces s' else s
  | EmptyString => EmptyString
  end.

(** [parseInt(s, 10)]: leading whitespace skipped, an optional sign, then
    the longest run of decimal digits; [NaN] when there is none. *)
Definition parseInt10 (s : string) : option Z :=
  let s1 := skip_spaces s in
  let '(sign, s2) :=
    match s1 with
    | String "-"%char r => ((-1)%Z, r)
    | String "+"%char r => (1%Z, r)
    | _ => (1%Z, s1)
    end in
  match digits_prefix s2 with
  | (Nil, _) => None
  | (u, _) => Some (sign * Z.of_uint u)%Z
  end.

Fixpoint string_of_uint (u : uint) : string :=
  match u with
  | Nil => EmptyString
  | D0 u => String "0" (string_of_uint u) | D1 u => String "1" (string_of_uint u)
  | D2 u => String "2" (string_of_uint u) | D3 u => String "3" (string_of_uint u)
  | D4 u => String "4" (string_of_uint u) | D5 u => String "5" (string_of_uint u)
  | D6 u => String "6" (string_of_uint u) | D7 u => String "7" (string_of_uint u)
  | D8 u => String "8" (string_of_uint u) | D9 u => String "9" (string_of_uint u)
  end.

(** [String(n)] for an integer [n]. *)
Definition numberToString (n : Z) : string :=
  match Z.to_int n with
  | Decimal.Pos u => string_of_uint u
  | Decimal.Neg u => "-" ++ string_of_uint u
  end.

(** [x.toFixed(2)]: [n / 100] for the integer [n] nearest to [100 x]
    (halves rounded up), written with exactly two decimals. *)
Definition toFixed2 (x : Q) : string :=
  let sgn := if Qle_bool 0 x then EmptyString else "-" in
  let n := Js.round (Qabs x * 100) in
  let frac := Z.rem n 100 in
  sgn ++ numberToString (Z.quot n 100) ++ "." ++
    (if (frac <? 10)%Z then "0" else EmptyString) ++ numberToString frac.

End JsNumber.

Section JsNumberLemmas.
Import JsNumber.

Definition starts_with_digit (s : string) : bool :=
  match s with
  | String c _ => match digit c with Some _ => true | None => false end
  | EmptyString => false
  end.

Lemma digits_prefix_app (u : uint) (s : string) :
  starts_with_digit s = false ->
  digits_prefix (string_of_uint u ++ s) = (u, s).
Proof.
  intros Hs. induction u; simpl; try (rewrite IHu; reflexivity).
  destruct s as [|c s']; simpl in *; [reflexivity|].
  destruct (digit c); [discriminate | reflexivity].
Qed.

Lemma to_int_nonnil (n : Z) :
  match Z.to_int n with Decimal.Pos u | Decimal.Neg u => u <> Nil end.
Proof.
  destruct n; simpl; try discriminate; apply Unsigned.to_uint_nonnil.
Qed.

(** Round trip: [parseInt(String(n) + s, 10) === n] when [s] does not
    continue the digits. *)
Theorem parseInt10_numberToString (n : Z) (s : string) :
  starts_with_digit s = false ->
  parseInt10 (numberToString n ++ s) = Some n.
Proof.
  intros Hs. pose proof (to_int_nonnil n) as Hnil.
  pose proof (DecimalZ.of_to n) as Hof.
  unfold parseInt10, numberToString.
  destruct (Z.to_int n) as [u|u]; subst n;
    destruct u; try contradiction; simpl;
    rewrite digits_prefix_app by exact Hs; f_equal; destruct (Z.of_uint _); reflexivity.
Qed.

End JsNumberLemmas.
