(* ===== verification/Gemini.v ===== *)
(** * Gemini: [src/services/geminiService.ts]

    The resilient client of the text-generation API, in the [Async] monad.
    - [ai], [api_key_set]: the module-level [API_KEY] / [ai] constants
      (lines 4-8), as functions of the configuration.
    - [generateContentWithRetry] (lines 18-53): one call, then on an error
      whose text contains "429" or "RESOURCE_EXHAUSTED" and while retries
      remain, a jittered sleep and a recursive call with [retries - 1] and
      [delay * 2]; otherwise the error is logged and rethrown.  The
      recursion is structural on [retries], as in the code.
    - [generateWithFallback] (lines 55-73), [generateAgencyContent]
      (lines 75-83): the tagline, which never fails.
    - [locationFocus], [interestPrompt], [itineraryPrompt] (lines 94-118):
      the prompt builder; [generateItinerary] (lines 93-156): the key-less
      fallback after a 1.5 s timer, the call, and the error rethrown as
      "Failed to generate itinerary ...".

    Module [GeminiFixtures] holds the configurations and API behaviours of
    the concrete runs of Module [GeminiRuns].

    Theorems: the full behaviour of the retry loop for every answer
    sequence of the API (outcome, number of calls, exact wait times), its
    bound of [retries + 1] attempts, the bounds of the waits the loop
    sleeps, the containment of every failure by [generateWithFallback],
    the key-less paths, the only error [generateItinerary] can raise, and
    the classification of any error whose text contains "429" as rate
    limiting. *)

From Stdlib Require Import String Ascii ZArith QArith List Bool Lia Lqa.
From S2P Require Import Prelude Async JsNumber.
Import ListNotations.
Local Open Scope string_scope.
Local Open Scope async_scope.

Module GeminiService.

(** The double-quote character, which the prompts contain. *)
Definition dq : string := String (ascii_of_nat 34) EmptyString.

(** ** Configuration: [process.env.API_KEY] and the [ai] client *)

Record Config := mkConfig { API_KEY : option string }.

Record GoogleGenAI := mkGoogleGenAI { apiKey : string }.

(** [API_KEY] in a boolean position: [undefined] and the empty string are falsy. *)
Definition api_key_set (cfg : Config) : bool :=
  match API_KEY cfg with
  | Some k => Js.truthy_string k
  | None => false
  end.

(** [const ai = API_KEY ? new GoogleGenAI({ apiKey: API_KEY }) : null]. *)
Definition ai (cfg : Config) : option GoogleGenAI :=
  match API_KEY cfg with
  | Some k => if Js.truthy_string k then Some (mkGoogleGenAI k) else None
  | None => None
  end.

(** ** [generateContentWithRetry] *)

Definition default_retries : nat := 3.
Definition default_delay : Z := 1000.

Definition isRateLimitError (error : JsError) : bool :=
  let errorMessage := toString error in
  Js.includes errorMessage "429" || Js.includes errorMessage "RESOURCE_EXHAUSTED".

Definition retry_warning (waitTime : Q) (retries : nat) : string :=
  "Gemini API call failed due to rate limiting. Retrying in " ++
  JsNumber.toFixed2 (waitTime / 1000) ++ "s... (" ++
  JsNumber.numberToString (Z.of_nat retries) ++ " retries left)".

(** The [else] branch: log according to the kind of error, rethrow. *)
Definition logAndRethrow {A} (error : JsError) (isRateLimitError : bool) : Async A :=
  (if isRateLimitError
   then log (ErrorLog "Gemini API call failed after multiple retries due to rate limiting." error)
   else log (ErrorLog "Gemini API call failed with a non-retriable error:" error)) ;;
  Throw error.

Definition not_initialized : JsError :=
  new_Error "Gemini AI client is not initialized. API_KEY is likely missing.".

(** [retries > 0 && isRateLimitError] is the match on [retries] followed
    by the test; both other cases give up. *)
Fixpoint generateContentWithRetry (ai : option GoogleGenAI) (params : GenerateParams)
         (retries : nat) (delay : Z) {struct retries} : Async GenerateContentResponse :=
  match ai with
  | None => Throw not_initialized
  | Some _ =>
      tryCatch (generateContent params) (fun error =>
        let isRateLimitError := isRateLimitError error in
        match retries with
        | S retries' =>
            if isRateLimitError then
              r <- math_random ;;
              let jitter := r * 500 in
              let waitTime := inject_Z delay + jitter in
              log (Warn (retry_warning waitTime retries)) ;;
              sleep waitTime ;;
              generateContentWithRetry ai params retries' (delay * 2)
            else logAndRethrow error isRateLimitError
        | O => logAndRethrow error isRateLimitError
        end)
  end.

(** ** [generateWithFallback] and the tagline *)

Definition flash (prompt : string) (temperature : Q) : GenerateParams :=
  mkParams "gemini-2.5-flash" prompt temperature.

Definition generateWithFallback (cfg : Config) (prompt fallback : string) : Async string :=
  if negb (api_key_set cfg) then Ret fallback
  else tryCatch
         (response <- generateContentWithRetry (ai cfg) (flash prompt (7 # 10))
                        default_retries default_delay ;;
          Ret (text response))
         (fun _ => Ret fallback).

Definition taglinePrompt : string :=
  "Génère une phrase d'accroche courte, immersive et percutante (moins de 15 mots) pour " ++ dq ++ "Nerza Agency" ++ dq ++ ", une agence de voyage lifestyle et premium au Maroc pour jeunes adultes. Le ton doit être inspirant et donner envie de découvrir le Maroc autrement. Pense à des mots comme " ++ dq ++ "expérience" ++ dq ++ ", " ++ dq ++ "vibration" ++ dq ++ ", " ++ dq ++ "authentique" ++ dq ++ ". Ne retourne que la phrase d'accroche, sans guillemets ni préfixe.".

Definition fallbackTagline : string :=
  "Vibrez au rythme d'un Maroc secret et exaltant.".

Record AgencyContent := mkAgencyContent { tagline : string }.

Definition generateAgencyContent (cfg : Config) : Async AgencyContent :=
  tagline <- generateWithFallback cfg taglinePrompt fallbackTagline ;;
  Ret (mkAgencyContent tagline).

(** ** The itinerary *)

(** ['Agadir' | 'Region'] *)
Inductive region := Agadir | Region.

Record ItineraryParams := mkItineraryParams {
  region_of : region;
  interests : list string;
  duration : Z;
  budget : string
}.

Definition locationFocus (r : region) : string :=
  match r with
  | Agadir =>
      "Concentre-toi exclusivement sur Agadir et ses environs immédiats (y compris Taghazout pour le surf et les sports nautiques). Le voyageur souhaite rester dans la zone côtière principale."
  | Region =>
      "Concentre-toi sur la création d'un itinéraire d'aventure et de découverte dans l'arrière-pays, en explorant des destinations comme Tafraout, Tiznit et les montagnes de l'Anti-Atlas. Si le voyageur exprime un intérêt pour 'Nuits en Bivouac' ou 'Culture Berbère' ou si cela semble pertinent pour un séjour 'Aventure', suggère spécifiquement 'Camping Tazka' à Tafraout comme une excellente option. Le voyageur veut explicitement sortir d'Agadir."
  end.

Definition interestPrompt (interests : list string) : string :=
  if (0 <? length interests)%nat then
  "Les centres d'intérêt optionnels du voyageur sont : " ++
  Js.join ", " interests ++
  ". Utilise-les comme inspiration principale pour tes suggestions."
  else
  "Le voyageur n'a pas spécifié de centres d'intérêt. Propose un itinéraire équilibré et emblématique basé sur la région choisie (par exemple, luxe balnéaire, sports nautiques et gastronomie pour Agadir ; ou trekking, aventure et immersion culturelle berbère pour la région).".

Definition itineraryPrompt (p : ItineraryParams) : string :=
  let duration := duration p in
  let budget := budget p in
  let locationFocus := locationFocus (region_of p) in
  let interestPrompt := interestPrompt (interests p) in
  "Tu es " ++ dq ++ "Nerza" ++ dq ++ ", un expert en voyages d'exception pour l'agence Nerza Agency, spécialisé dans la région d'Agadir, au Maroc. Ta mission est de créer un itinéraire personnalisé et détaillé, jour par jour, pour un séjour de " ++
  JsNumber.numberToString duration ++
  " jours.

Les préférences du voyageur sont :
- Budget : " ++ dq ++
  budget ++
  dq ++ "

**Instructions importantes :**
1.  **Instruction de Région Clé :** " ++
  locationFocus ++
  "
2.  **Centres d'Intérêt :** " ++
  interestPrompt ++
  "
3.  **Détail du programme :** Pour chaque jour, propose un programme pour le matin, l'après-midi, et la soirée. Donne des conseils qui sortent des sentiers battus.
4.  **Authenticité Vérifiée :** Inclus des noms de lieux spécifiques et VÉRIFIABLES (restaurants, sites, hôtels, riads). Par exemple, si tu suggères un riad à Tiznit, utilise des noms connus comme " ++ dq ++ "Riad Le Lieu" ++ dq ++ " ou " ++ dq ++ "Riad Janoub" ++ dq ++ ", et non des noms inventés. La crédibilité est essentielle.
5.  **Ton :** Le ton doit être engageant, inspirant et premium, en accord avec l'image de Nerza Agency.
6.  **Format :** Structure la réponse avec des titres clairs en Markdown (ex: `### Jour 1: Immersion Atlantique`, `**Matin :**`, etc.). Utilise les doubles astérisques (**) pour mettre en valeur les noms de lieux importants.
7.  **Prix :** Ne mentionne AUCUN prix ou budget dans ta réponse. Le prix final sera calculé et affiché par notre système. Concentre-toi uniquement sur la création d'un itinéraire inspirant.
8.  **Transport Aéroport :** Mentionne explicitement au début de l'itinéraire (Jour 1) que le transport privé depuis l'aéroport d'Agadir Al Massira (AGA) jusqu'à leur lieu de séjour est inclus et organisé par Nerza Agency.
9.  **Clarification des Inclusions :** Précise que les repas (déjeuner, dîner) et les boissons dans les lieux suggérés sont à la charge du client. Le forfait Nerza inclut l'hébergement, le transport et les activités planifiées.

Commence directement par l'itinéraire du Jour 1. N'ajoute aucune introduction ni conclusion.".

Definition fallbackItinerary : string :=
  "### Jour 1: Arrivée et Ambiance Océane à Agadir

**Matin:** Accueil personnalisé à l'aéroport d'Agadir Al Massira (AGA) par votre chauffeur Nerza Agency et transfert privé jusqu'à votre hôtel. Après votre installation, profitez d'une promenade sur la corniche d'Agadir pour respirer l'air marin et vous imprégner de l'atmosphère détendue de la ville.
**Après-midi:** Visite de la Kasbah d'Agadir Oufella. Profitez d'une vue panoramique imprenable sur la baie d'Agadir. C'est le spot parfait pour des photos mémorables.
**Soir:** Dîner (à votre charge) au restaurant **Le Flore** sur le port de plaisance, réputé pour ses fruits de mer frais, dans une ambiance chic et décontractée.

### Jour 2: Aventure vers Tafraout

**Matin:** Départ pour Tafraout à travers les paysages spectaculaires de l'Anti-Atlas. Arrêt pour admirer les formations rocheuses uniques, notamment le " ++ dq ++ "Chapeau de Napoléon" ++ dq ++ ".
**Après-midi:** Randonnée dans la vallée des Ammeln et découverte des célèbres rochers peints par l'artiste belge Jean Vérame. Une expérience artistique en pleine nature.
**Soir:** Dîner (à votre charge) et nuit dans une auberge de charme à Tafraout, pour goûter à l'hospitalité berbère authentique sous un ciel étoilé exceptionnel.

### Jour 3: Culture à Tiznit et retour

**Matin:** Route vers Tiznit, la " ++ dq ++ "cité d'argent" ++ dq ++ ". Visite des remparts historiques et exploration du souk des bijoutiers, réputé pour ses créations en argent filigrané.
**Après-midi:** Déjeuner (à votre charge) à Tiznit au **Riad Le Lieu** avant de prendre la route côtière pour retourner à Agadir. Arrêt possible sur la plage sauvage de Mirleft pour une dernière bouffée d'air marin.
**Soir:** Coucher de soleil et dernier verre au **So Lounge Agadir**, un bar rooftop avec une vue spectaculaire sur l'océan pour clôturer votre séjour.
".

Definition itinerary_failure : JsError :=
  new_Error "Failed to generate itinerary from AI after multiple attempts.".

Definition generateItinerary (cfg : Config) (p : ItineraryParams) : Async string :=
  let prompt := itineraryPrompt p in
  if negb (api_key_set cfg) then
    sleep 1500 ;; Ret fallbackItinerary
  else
    tryCatch
      (response <- generateContentWithRetry (ai cfg) (flash prompt (8 # 10))
                     default_retries default_delay ;;
       Ret (text response))
      (fun _ => Throw itinerary_failure).

End GeminiService.

(** ** Fixtures of the concrete runs: configurations, API behaviours and
    random sources *)

Module GeminiFixtures.
Import GeminiService.

Definition with_key : Config := mkConfig (Some "AIza-test"%string).
Definition without_key : Config := mkConfig None.
Definition client : GoogleGenAI := mkGoogleGenAI "AIza-test".
Definition half : nat -> Q := fun _ => 1 # 2.

(** The API answers 429 twice, then succeeds. *)
Definition twice_429 (i : nat) (_ : GenerateParams) : Settled GenerateContentResponse :=
  if (i <? 2)%nat
  then Rejected (mkError "Error: got status: 429 Too Many Requests. RESOURCE_EXHAUSTED")
  else Fulfilled (mkResponse "### Jour 1").

(** The API always fails with a server error. *)
Definition always_500 (_ : nat) (_ : GenerateParams) : Settled GenerateContentResponse :=
  Rejected (mkError "Error: got status: 500 Internal Server Error").

Definition tagline_params : GenerateParams := flash taglinePrompt (7 # 10).

Definition sample_trip : ItineraryParams :=
  mkItineraryParams Agadir [] 5 "Confort".

End GeminiFixtures.

(** ** The retry loop, step by step *)

Section Retry.
Local Open Scope list_scope.
Import GeminiService.
Variable api : nat -> GenerateParams -> Settled GenerateContentResponse.
Variable rnd : nat -> Q.
Variable client : GoogleGenAI.
Variable params : GenerateParams.

Local Abbreviation run := (run api rnd).
Local Abbreviation retry := (generateContentWithRetry (Some client) params).

Definition with_call (w : World) : World :=
  mkWorld (calls w ++ [params]) (draws w) (sleeps w) (console w).

(** The world after a rate-limited attempt: one draw, one warning, one
    sleep of [delay + 500 * Math.random()]. *)
Definition after_backoff (w : World) (retries : nat) (delay : Z) : World :=
  let waitTime := inject_Z delay + rnd (draws w) * 500 in
  mkWorld (calls w) (S (draws w)) (sleeps w ++ [waitTime])
          (console w ++ [Warn (retry_warning waitTime retries)]).

Definition rethrow_log (e : JsError) : ConsoleEntry :=
  if isRateLimitError e
  then ErrorLog "Gemini API call failed after multiple retries due to rate limiting." e
  else ErrorLog "Gemini API call failed with a non-retriable error:" e.

Definition with_log (w : World) (l : ConsoleEntry) : World :=
  mkWorld (calls w) (draws w) (sleeps w) (console w ++ [l]).

(** An answer that retries: a rejection whose text looks rate-limited. *)
Definition rate_limited (s : Settled GenerateContentResponse) : bool :=
  match s with
  | Rejected e => isRateLimitError e
  | Fulfilled _ => false
  end.

(** An answer that ends the loop when it is the [k]-th one: a success, an
    error that is not rate-limited, or any error once retries are out. *)
Definition final_answer (retries k : nat) (s : Settled GenerateContentResponse) : bool :=
  match s with
  | Fulfilled _ => true
  | Rejected e => negb (isRateLimitError e) || (k =? retries)%nat
  end.

(** The waits before attempts [1 .. k], the first draw being the [j]-th:
    [delay * 2^i + 500 * Math.random()]. *)
Fixpoint backoff (j : nat) (delay : Z) (k : nat) : list Q :=
  match k with
  | O => []
  | S k' => (inject_Z delay + rnd j * 500) :: backoff (S j) (delay * 2) k'
  end.

Lemma length_backoff (j : nat) (delay : Z) (k : nat) : length (backoff j delay k) = k.
Proof. revert j delay. induction k as [|k IH]; intros j delay; simpl; [reflexivity|]. now rewrite IH. Qed.

(** The total time slept. *)
Definition total_wait (l : list Q) : Q := fold_right Qplus 0 l.

Lemma run_logAndRethrow {A} (e : JsError) (w : World) :
  run (logAndRethrow (A := A) e (isRateLimitError e)) w = (Rejected e, with_log w (rethrow_log e)).
Proof. unfold logAndRethrow, rethrow_log. destruct (isRateLimitError e); reflexivity. Qed.

(** One attempt of [generateContentWithRetry]. *)
Lemma run_retry (retries : nat) (delay : Z) (w : World) :
  run (retry retries delay) w =
  match api (length (calls w)) params with
  | Fulfilled r => (Fulfilled r, with_call w)
  | Rejected e =>
      match retries with
      | S r' =>
          if isRateLimitError e
          then run (retry r' (delay * 2)) (after_backoff (with_call w) retries delay)
          else (Rejected e, with_log (with_call w) (rethrow_log e))
      | O => (Rejected e, with_log (with_call w) (rethrow_log e))
      end
  end.
Proof.
  destruct retries as [|r']; simpl; rewrite run_tryCatch; simpl;
    destruct (api _ params) as [r|e]; simpl; try reflexivity;
    try apply run_logAndRethrow.
  destruct (isRateLimitError e) eqn:E; [reflexivity|].
  rewrite <- E. apply run_logAndRethrow.
Qed.

(** ** The behaviour of the loop for every answer sequence *)

Lemma shift_index (n i : nat) : (S n + i = n + S i)%nat.
Proof. lia. Qed.

(** The run of the loop, given the index of its last answer. *)
Lemma retry_trace (retries : nat) (delay : Z) (w : World) (k : nat) :
  (k <= retries)%nat ->
  (forall i, (i < k)%nat -> rate_limited (api (length (calls w) + i) params) = true) ->
  final_answer retries k (api (length (calls w) + k) params) = true ->
  let '(o, w') := run (retry retries delay) w in
  o = api (length (calls w) + k) params /\
  calls w' = calls w ++ repeat params (S k) /\
  draws w' = (draws w + k)%nat /\
  sleeps w' = sleeps w ++ backoff (draws w) delay k.
Proof.
  revert retries delay w.
  induction k as [|k IH]; intros retries delay w Hk Hrl Hfin; rewrite run_retry.
  - rewrite Nat.add_0_r in *.
    destruct (api _ params) as [r|e]; simpl in Hfin.
    + simpl. rewrite !app_nil_r, Nat.add_0_r. auto.
    + destruct retries as [|r']; [|destruct (isRateLimitError e); [discriminate|]];
        simpl; rewrite !app_nil_r, Nat.add_0_r; auto.
  - destruct retries as [|r']; [lia|].
    pose proof (Hrl 0%nat ltac:(lia)) as H0. rewrite Nat.add_0_r in H0.
    destruct (api (length (calls w)) params) as [r|e]; simpl in H0; [discriminate|]. rewrite H0.
    set (w2 := after_backoff (with_call w) (S r') delay).
    assert (Hlen : length (calls w2) = S (length (calls w))).
    { simpl. rewrite length_app. simpl. lia. }
    specialize (IH r' (delay * 2)%Z w2 ltac:(lia)).
    rewrite Hlen in IH.
    assert (Hrl' : forall i, (i < k)%nat ->
              rate_limited (api (S (length (calls w)) + i) params) = true).
    { intros i Hi. rewrite shift_index. apply Hrl. lia. }
    assert (Hfin' : final_answer r' k (api (S (length (calls w)) + k) params) = true).
    { rewrite shift_index. exact Hfin. }
    specialize (IH Hrl' Hfin').
    destruct (run (retry r' (delay * 2)) w2) as [o w'].
    destruct IH as (Ho & Hc & Hd & Hs).
    rewrite shift_index in Ho. repeat split; [exact Ho| | |].
    * rewrite Hc. simpl. rewrite <- app_assoc. reflexivity.
    * rewrite Hd. simpl. lia.
    * rewrite Hs. simpl. rewrite <- app_assoc. reflexivity.
Qed.

(** C1: The loop makes [k + 1] calls, settles with the [k]-th answer and has
    slept the [k] backoff waits, where [k] is the index of the first
    answer that ends it. *)
Theorem generateContentWithRetry_run (retries : nat) (delay : Z) (w : World) (k : nat) :
  (k <= retries)%nat ->
  (forall i, (i < k)%nat -> rate_limited (api (length (calls w) + i) params) = true) ->
  final_answer retries k (api (length (calls w) + k) params) = true ->
  let '(o, w') := run (retry retries delay) w in
  o = api (length (calls w) + k) params /\
  calls w' = calls w ++ repeat params (S k) /\
  draws w' = (draws w + k)%nat /\
  sleeps w' = sleeps w ++ backoff (draws w) delay k.
Proof. exact (retry_trace retries delay w k). Qed.

(** Every answer sequence has a first answer that ends the loop, at an
    index at most [retries]. *)
Lemma first_final_answer (f : nat -> Settled GenerateContentResponse) (retries : nat) :
  exists k, (k <= retries)%nat /\
    (forall i, (i < k)%nat -> rate_limited (f i) = true) /\
    final_answer retries k (f k) = true.
Proof.
  revert f. induction retries as [|r IH]; intros f.
  - exists 0%nat. split; [lia|]. split; [intros; lia|].
    destruct (f 0%nat); simpl; rewrite ?orb_true_r; reflexivity.
  - destruct (rate_limited (f 0%nat)) eqn:E0.
    + destruct (IH (fun i => f (S i))) as (k & Hk & Hrl & Hfin).
      exists (S k). split; [lia|]. split; [|exact Hfin].
      intros [|i] Hi; [exact E0|]. apply Hrl. lia.
    + exists 0%nat. split; [lia|]. split; [intros; lia|].
      destruct (f 0%nat) as [|e]; simpl in *; [reflexivity|].
      rewrite E0. reflexivity.
Qed.

(** Every run of the loop has an index of last answer. *)
Lemma retry_settles (retries : nat) (delay : Z) (w : World) :
  exists k, (k <= retries)%nat /\
  let '(o, w') := run (retry retries delay) w in
  o = api (length (calls w) + k) params /\
  calls w' = calls w ++ repeat params (S k) /\
  sleeps w' = sleeps w ++ backoff (draws w) delay k.
Proof.
  destruct (first_final_answer (fun i => api (length (calls w) + i) params) retries)
    as (k & Hk & Hrl & Hfin).
  exists k. split; [exact Hk|].
  pose proof (retry_trace retries delay w k Hk Hrl Hfin) as H.
  destruct (run (retry retries delay) w). tauto.
Qed.

(** C2: Termination and bound: whatever the API answers, the loop settles
    after between 1 and [retries + 1] calls, with the answer of its last
    call and one backoff wait between consecutive calls. *)
Theorem generateContentWithRetry_attempts (retries : nat) (delay : Z) (w : World) :
  exists k, (k <= retries)%nat /\
  let '(o, w') := run (retry retries delay) w in
  o = api (length (calls w) + k) params /\
  calls w' = calls w ++ repeat params (S k) /\
  sleeps w' = sleeps w ++ backoff (draws w) delay k.
Proof. exact (retry_settles retries delay w). Qed.

(** ** Bounds of the backoff waits *)

Section Jitter.
Hypothesis rnd_range : forall j, 0 <= rnd j < 1.

(** The [i]-th wait of [backoff] lies in [[delay * 2^i, delay * 2^i + 500)]. *)
Lemma backoff_wait_bounds (j : nat) (delay : Z) (k i : nat) (t : Q) :
  nth_error (backoff j delay k) i = Some t ->
  inject_Z (delay * 2 ^ Z.of_nat i) <= t < inject_Z (delay * 2 ^ Z.of_nat i) + 500.
Proof.
  revert j delay i. induction k as [|k IH]; intros j delay i Ht; [destruct i; discriminate|].
  destruct i as [|i]; simpl in Ht.
  - injection Ht as <-. rewrite Z.mul_1_r. pose proof (rnd_range j). lra.
  - specialize (IH _ _ _ Ht).
    replace (delay * 2 ^ Z.of_nat (S i))%Z with (delay * 2 * 2 ^ Z.of_nat i)%Z; [exact IH|].
    rewrite Nat2Z.inj_succ, Z.pow_succ_r by lia. ring.
Qed.

(** The [k] waits of [backoff] add up to at least [delay * (2^k - 1)] and less than
    that plus [500 k] (for [k > 0]). *)
Lemma backoff_total_bounds (j : nat) (delay : Z) (k : nat) :
  inject_Z (delay * (2 ^ Z.of_nat k - 1)) <= total_wait (backoff j delay k) /\
  total_wait (backoff j delay k) <= inject_Z (delay * (2 ^ Z.of_nat k - 1)) + 500 * inject_Z (Z.of_nat k).
Proof.
  unfold total_wait. revert j delay.
  induction k as [|k IH]; intros j delay; cbn [backoff fold_right].
  - replace (2 ^ Z.of_nat 0 - 1)%Z with 0%Z by reflexivity.
    rewrite Z.mul_0_r. change (inject_Z 0) with 0. change (inject_Z (Z.of_nat 0)) with 0. lra.
  - destruct (IH (S j) (delay * 2)%Z) as [H1 H2]. pose proof (rnd_range j).
    assert (E : (delay * (2 ^ Z.of_nat (S k) - 1) = delay + delay * 2 * (2 ^ Z.of_nat k - 1))%Z).
    { rewrite Nat2Z.inj_succ, Z.pow_succ_r by lia. ring. }
    rewrite E, inject_Z_plus. rewrite Nat2Z.inj_succ, <- Z.add_1_r, inject_Z_plus.
    change (inject_Z 1) with 1. lra.
Qed.

(** C15: The waits the loop actually sleeps, whatever the API answers:
    at most [retries] of them, the [i]-th within
    [[delay * 2^i, delay * 2^i + 500)], adding up to between
    [delay * (2^k - 1)] and that plus [500 k] for [k] waits (7000 to
    8500 ms for the three waits of the defaults). *)
Theorem generateContentWithRetry_waits (retries : nat) (delay : Z) (w : World) :
  let '(_, w') := run (retry retries delay) w in
  exists waits, sleeps w' = sleeps w ++ waits /\ (length waits <= retries)%nat /\
    (forall i t, nth_error waits i = Some t ->
       inject_Z (delay * 2 ^ Z.of_nat i) <= t < inject_Z (delay * 2 ^ Z.of_nat i) + 500) /\
    inject_Z (delay * (2 ^ Z.of_nat (length waits) - 1)) <= total_wait waits /\
    total_wait waits <= inject_Z (delay * (2 ^ Z.of_nat (length waits) - 1)) +
                        500 * inject_Z (Z.of_nat (length waits)).
Proof.
  destruct (retry_settles retries delay w) as (k & Hk & H).
  destruct (run (retry retries delay) w) as [o w']. destruct H as (_ & _ & Hs).
  exists (backoff (draws w) delay k). rewrite length_backoff.
  split; [exact Hs|]. split; [exact Hk|].
  split; [intros i t; apply backoff_wait_bounds | apply backoff_total_bounds].
Qed.

End Jitter.

End Retry.

(** ** The two call sites *)

Section Service.
Import GeminiService.
Local Open Scope list_scope.
Variable api : nat -> GenerateParams -> Settled GenerateContentResponse.
Variable rnd : nat -> Q.
Local Abbreviation run := (run api rnd).

Lemma ai_of_key (cfg : Config) :
  api_key_set cfg = true -> exists c, ai cfg = Some c.
Proof.
  unfold api_key_set, ai. destruct (API_KEY cfg) as [k|]; [|discriminate].
  intros ->. eauto.
Qed.

(** With a key, a call site runs the retry loop once with the default
    policy and maps its result; the outcome is decided by the answer of
    the loop's last call. *)
Lemma run_call_site (cfg : Config) (p : GenerateParams) (ko : Async string) (w : World) :
  api_key_set cfg = true ->
  exists k, (k <= default_retries)%nat /\
    calls (snd (run (generateContentWithRetry (ai cfg) p default_retries default_delay) w))
      = calls w ++ repeat p (S k) /\
    run (tryCatch (response <- generateContentWithRetry (ai cfg) p default_retries default_delay ;;
                   Ret (text response)) (fun _ => ko)) w =
    let w' := snd (run (generateContentWithRetry (ai cfg) p default_retries default_delay) w) in
    match api (length (calls w) + k) p with
    | Fulfilled r => (Fulfilled (text r), w')
    | Rejected _ => run ko w'
    end.
Proof.
  intros Hkey. destruct (ai_of_key cfg Hkey) as [c Hc]. rewrite Hc.
  destruct (retry_settles api rnd c p default_retries default_delay w)
    as (k & Hk & H).
  exists k. split; [exact Hk|].
  rewrite run_tryCatch, run_bind.
  destruct (Async.run api rnd (generateContentWithRetry (Some c) p default_retries default_delay) w)
    as [o w'].
  destruct H as (-> & Hc' & _). simpl. split; [exact Hc'|].
  destruct (api (length (calls w) + k) p); reflexivity.
Qed.

(** The outcome of a call site with a fallback. *)
Lemma fallback_result (cfg : Config) (prompt fallback : string) (w : World) :
  exists s, fst (run (generateWithFallback cfg prompt fallback) w) = Fulfilled s /\
    (s = fallback \/ exists i r, api i (flash prompt (7 # 10)) = Fulfilled r /\ s = text r).
Proof.
  unfold generateWithFallback.
  destruct (api_key_set cfg) eqn:Hkey; cbn [negb];
    [|exists fallback; split; [reflexivity | left; reflexivity]].
  destruct (run_call_site cfg (flash prompt (7 # 10)) (Ret fallback) w Hkey)
    as (k & _ & _ & ->).
  destruct (api _ _) as [r|e] eqn:E; simpl.
  - exists (text r). split; [reflexivity | right; eauto].
  - exists fallback. split; [reflexivity | left; reflexivity].
Qed.

(** C3: [generateWithFallback] never rejects: its result is the fallback or
    the text of an answer of the API to the prompt. *)
Theorem generateWithFallback_contained (cfg : Config) (prompt fallback : string) (w : World) :
  exists s, fst (run (generateWithFallback cfg prompt fallback) w) = Fulfilled s /\
    (s = fallback \/ exists i r, api i (flash prompt (7 # 10)) = Fulfilled r /\ s = text r).
Proof. exact (fallback_result cfg prompt fallback w). Qed.

(** C16: Without a key, [generateWithFallback] returns the fallback at once:
    no call, no draw, no sleep, no log. *)
Theorem generateWithFallback_no_key (cfg : Config) (prompt fallback : string) (w : World) :
  api_key_set cfg = false ->
  run (generateWithFallback cfg prompt fallback) w = (Fulfilled fallback, w).
Proof. intros H. unfold generateWithFallback. rewrite H. reflexivity. Qed.

(** The tagline request always resolves. *)
Theorem generateAgencyContent_total (cfg : Config) (w : World) :
  exists t, fst (run (generateAgencyContent cfg) w) = Fulfilled (mkAgencyContent t).
Proof.
  unfold generateAgencyContent. rewrite run_bind.
  destruct (fallback_result cfg taglinePrompt fallbackTagline w) as (s & Hs & _).
  destruct (run (generateWithFallback cfg taglinePrompt fallbackTagline) w) as [o w'].
  simpl in Hs. subst o. exists s. reflexivity.
Qed.

(** C17: Without a key, the itinerary is the fixed sample, after a 1500 ms
    timer and without any call. *)
Theorem generateItinerary_no_key (cfg : Config) (p : ItineraryParams) (w : World) :
  api_key_set cfg = false ->
  run (generateItinerary cfg p) w =
  (Fulfilled fallbackItinerary, mkWorld (calls w) (draws w) (sleeps w ++ [1500]) (console w)).
Proof. intros H. unfold generateItinerary. rewrite H. reflexivity. Qed.

(** C18: With a key, [generateItinerary] makes at most four calls with the
    prompt at temperature 0.8, and fulfils with the text of the last
    answer or rejects with the single error [itinerary_failure]. *)
Theorem generateItinerary_with_key (cfg : Config) (p : ItineraryParams) (w : World) :
  api_key_set cfg = true ->
  exists k, (k <= 3)%nat /\
    let '(o, w') := run (generateItinerary cfg p) w in
    calls w' = calls w ++ repeat (flash (itineraryPrompt p) (8 # 10)) (S k) /\
    match api (length (calls w) + k) (flash (itineraryPrompt p) (8 # 10)) with
    | Fulfilled r => o = Fulfilled (text r)
    | Rejected _ => o = Rejected itinerary_failure
    end.
Proof.
  intros Hkey. unfold generateItinerary. rewrite Hkey. cbn [negb].
  destruct (run_call_site cfg (flash (itineraryPrompt p) (8 # 10)) (Throw itinerary_failure) w Hkey)
    as (k & Hk & Hc & ->).
  exists k. split; [exact Hk|].
  destruct (api _ _); simpl; auto.
Qed.

(** C4: The only error the itinerary request raises is [itinerary_failure]:
    the "not initialized" error and the API's own errors never reach the
    form. *)
Corollary generateItinerary_error (cfg : Config) (p : ItineraryParams) (w : World) (e : JsError) :
  fst (run (generateItinerary cfg p) w) = Rejected e -> e = itinerary_failure.
Proof.
  unfold generateItinerary. destruct (api_key_set cfg) eqn:Hkey; cbn [negb]; [|discriminate].
  destruct (run_call_site cfg (flash (itineraryPrompt p) (8 # 10)) (Throw itinerary_failure) w Hkey)
    as (k & _ & _ & ->).
  destruct (api _ _); simpl; congruence.
Qed.

End Service.

(** ** The prompt states the requested duration *)

(** ** Concrete runs *)

Module GeminiRuns.
Import GeminiService GeminiFixtures.
Local Open Scope list_scope.

Lemma half_range : forall j, 0 <= half j < 1.
Proof. intros j. unfold half. lra. Qed.

(** Rate-limited on attempts 1 and 2, success on attempt 3: three calls,
    waits of 1000 and 2000 ms plus jitter. *)
Lemma generateContentWithRetry_run_witness :
  let '(o, w') := Async.run twice_429 half
      (generateContentWithRetry (Some client) tagline_params 3 1000) world0 in
  o = twice_429 (length (calls world0) + 2) tagline_params /\
  calls w' = calls world0 ++ repeat tagline_params 3 /\
  draws w' = (draws world0 + 2)%nat /\
  sleeps w' = sleeps world0 ++ backoff half (draws world0) 1000 2.
Proof.
  apply (generateContentWithRetry_run twice_429 half client tagline_params 3 1000 world0 2).
  - lia.
  - intros [|[|i]] Hi; [reflexivity | reflexivity | lia].
  - reflexivity.
Defined.

(** With rate limits on attempts 1 and 2 (two waits), from an empty world. *)
Lemma generateContentWithRetry_waits_witness :
  (forall j, 0 <= half j < 1) /\
  let '(_, w') := Async.run twice_429 half
      (generateContentWithRetry (Some client) tagline_params 3 1000) world0 in
  exists waits, sleeps w' = sleeps world0 ++ waits /\ (length waits <= 3)%nat /\
    (forall i t, nth_error waits i = Some t ->
       inject_Z (1000 * 2 ^ Z.of_nat i) <= t < inject_Z (1000 * 2 ^ Z.of_nat i) + 500) /\
    inject_Z (1000 * (2 ^ Z.of_nat (length waits) - 1)) <= total_wait waits /\
    total_wait waits <= inject_Z (1000 * (2 ^ Z.of_nat (length waits) - 1)) +
                        500 * inject_Z (Z.of_nat (length waits)).
Proof.
  split; [exact half_range|].
  exact (generateContentWithRetry_waits twice_429 half client tagline_params half_range 3 1000 world0).
Defined.

Lemma generateWithFallback_no_key_witness :
  api_key_set without_key = false /\
  Async.run always_500 half (generateWithFallback without_key taglinePrompt fallbackTagline) world0
  = (Fulfilled fallbackTagline, world0).
Proof.
  split; [reflexivity|].
  apply (generateWithFallback_no_key always_500 half without_key). reflexivity.
Defined.

Lemma generateItinerary_no_key_witness :
  api_key_set without_key = false /\
  Async.run always_500 half (generateItinerary without_key sample_trip) world0 =
  (Fulfilled fallbackItinerary,
   mkWorld (calls world0) (draws world0) (sleeps world0 ++ [1500]) (console world0)).
Proof.
  split; [reflexivity|].
  apply (generateItinerary_no_key always_500 half without_key). reflexivity.
Defined.

Lemma generateItinerary_with_key_witness :
  api_key_set with_key = true /\
  exists k, (k <= 3)%nat /\
    let '(o, w') := Async.run twice_429 half (generateItinerary with_key sample_trip) world0 in
    calls w' = calls world0 ++ repeat (flash (itineraryPrompt sample_trip) (8 # 10)) (S k) /\
    match twice_429 (length (calls world0) + k) (flash (itineraryPrompt sample_trip) (8 # 10)) with
    | Fulfilled r => o = Fulfilled (text r)
    | Rejected _ => o = Rejected itinerary_failure
    end.
Proof.
  split; [reflexivity|].
  apply (generateItinerary_with_key twice_429 half with_key). reflexivity.
Defined.

(** With a key and a failing API, the itinerary request rejects with the
    normalised error. *)
Lemma generateItinerary_error_witness :
  fst (Async.run always_500 half (generateItinerary with_key sample_trip) world0)
    = Rejected itinerary_failure /\
  itinerary_failure = itinerary_failure.
Proof.
  assert (H : fst (Async.run always_500 half (generateItinerary with_key sample_trip) world0)
              = Rejected itinerary_failure) by (vm_compute; reflexivity).
  split; [exact H|].
  exact (generateItinerary_error always_500 half with_key sample_trip world0 itinerary_failure H).
Defined.

(** An error whose text contains "429" anywhere is taken for rate
    limiting. *)
Lemma isRateLimitError_429 (u v : string) : isRateLimitError (mkError (u ++ "429" ++ v)) = true.
Proof. unfold isRateLimitError. cbn [toString]. apply orb_true_intro. auto with nerza. Qed.

(** C29: The classification looks for "429" anywhere in the error text:
    when the API keeps failing with an error whose text merely contains
    "429", whatever surrounds it, the loop sends the request [retries + 1]
    times and rejects with that error. *)
Theorem substring_429_retried (u v : string) (rnd : nat -> Q) (c : GoogleGenAI)
    (p : GenerateParams) (retries : nat) (delay : Z) (w : World) :
  let e := mkError (u ++ "429" ++ v) in
  let '(o, w') := Async.run (fun _ _ => Rejected e) rnd
                    (generateContentWithRetry (Some c) p retries delay) w in
  o = Rejected e /\ calls w' = calls w ++ repeat p (S retries).
Proof.
  intros e. pose proof (isRateLimitError_429 u v) as He. fold e in He.
  pose proof (retry_trace (fun _ _ => Rejected e) rnd c p retries delay w retries (le_n _)
                (fun _ _ => He)) as H.
  cbn [final_answer] in H. rewrite He, Nat.eqb_refl in H. specialize (H eq_refl).
  destruct (Async.run _ _ _ w). tauto.
Qed.

(** The case of a 400 error about a token count of 34291: four calls
    instead of one. *)
Example token_count_error_retried :
  let e := mkError "Error: [400 Bad Request] The input token count (34291) exceeds the maximum number of tokens allowed (32768)." in
  isRateLimitError e = true /\
  calls (snd (Async.run (fun _ _ => Rejected e) half
                (generateContentWithRetry (Some client) tagline_params 3 1000) world0))
    = repeat tagline_params 4.
Proof. split; vm_compute; reflexivity. Qed.

End GeminiRuns.
