(* ===== verification/RetryLoop.v ===== *)
(** * RetryLoop: the retry policy of the specification as an explicit loop

    Section 9 of the specification asks for the recursive retry of
    [generateContentWithRetry] to be written as "an explicit bounded loop
    with an attempt counter and computed backoff delay", the policy (max
    attempts, base delay, backoff multiplier, jitter range) being a
    configuration record; section 4.2 gives its behaviour.  That loop is
    written here from the specification: [bounded_loop] runs a body at
    most [n] times, the body being one attempt ([attempt_body]); the loop
    state is the attempt number and the current delay.

    The theorem [generateWithRetry_equiv] shows the recursive code and
    the loop with [maxAttempts = retries + 1], multiplier 2 and jitter
    range 500 equivalent: same outcome, same calls, same random draws,
    same sleeps, for every answer sequence of the API and every random
    source.  They differ only in the console, which the loop of the
    specification does not describe. *)

From Stdlib Require Import String ZArith QArith List Bool Lia.
From S2P Require Import Prelude Async Gemini.
Import ListNotations.
Local Open Scope async_scope.

Module RetryLoop.
Import GeminiService.

Record RetryPolicy := mkRetryPolicy {
  maxAttempts : nat;
  baseDelay : Z;
  backoffMultiplier : Z;
  jitterRange : Q
}.

(** The policy of section 4.2: at most 4 attempts, from 1000 ms, doubling,
    with a jitter of up to 500 ms. *)
Definition default_policy : RetryPolicy := mkRetryPolicy 4 1000 2 500.

(** A loop run at most [n] times: the body continues with a new state
    ([inl]) or leaves with a result ([inr]). *)
Fixpoint bounded_loop {S R} (n : nat) (body : S -> Async (S + R)) (s : S) : Async (S + R) :=
  match n with
  | O => Ret (inl s)
  | Datatypes.S n' =>
      x <- body s ;;
      match x with
      | inl s' => bounded_loop n' body s'
      | inr r => Ret (inr r)
      end
  end.

Record LoopState := mkLoopState { attempt : nat; delayMs : Z }.

Inductive Exit :=
| Succeeded (r : GenerateContentResponse)
| GaveUp (e : JsError).

(** One attempt: the call; on a rate-limit error with attempts left, the
    jittered wait and the next state; otherwise the exit. *)
Definition attempt_body (policy : RetryPolicy) (params : GenerateParams) (st : LoopState)
    : Async (LoopState + Exit) :=
  tryCatch
    (r <- generateContent params ;; Ret (inr (Succeeded r)))
    (fun e =>
       if isRateLimitError e && (attempt st <? maxAttempts policy)%nat then
         j <- math_random ;;
         sleep (inject_Z (delayMs st) + j * jitterRange policy) ;;
         Ret (inl (mkLoopState (Datatypes.S (attempt st)) (delayMs st * backoffMultiplier policy)))
       else Ret (inr (GaveUp e))).

(** Raised if the loop ran out of iterations without an exit, which a
    policy with at least one attempt never does. *)
Definition exhausted : JsError := new_Error "retry loop exhausted".

Definition generateWithRetry (policy : RetryPolicy) (params : GenerateParams)
    : Async GenerateContentResponse :=
  x <- bounded_loop (maxAttempts policy) (attempt_body policy params)
         (mkLoopState 1 (baseDelay policy)) ;;
  match x with
  | inr (Succeeded r) => Ret r
  | inr (GaveUp e) => Throw e
  | inl _ => Throw exhausted
  end.

End RetryLoop.

Section Equivalence.
Import GeminiService RetryLoop.
Variable api : nat -> GenerateParams -> Settled GenerateContentResponse.
Variable rnd : nat -> Q.
Variable client : GoogleGenAI.
Variable params : GenerateParams.

Local Abbreviation run := (run api rnd).

(** The parts of the world the two programs must agree on: the calls, the
    draws and the sleeps.  The answers of the API and of [Math.random]
    only depend on the first two. *)
Definition same_obs (w1 w2 : World) : Prop :=
  calls w1 = calls w2 /\ draws w1 = draws w2 /\ sleeps w1 = sleeps w2.

(** The world after a rate-limited attempt of the loop: one draw, one
    sleep. *)
Definition loop_backoff (policy : RetryPolicy) (w : World) (delay : Z) : World :=
  mkWorld (calls w) (S (draws w)) (sleeps w ++ [inject_Z delay + rnd (draws w) * jitterRange policy])
          (console w).

(** One iteration of the loop. *)
Lemma run_loop (policy : RetryPolicy) (r a : nat) (d : Z) (w : World) :
  run (bounded_loop (S r) (attempt_body policy params) (mkLoopState a d)) w =
  match api (length (calls w)) params with
  | Fulfilled resp => (Fulfilled (inr (Succeeded resp)), with_call params w)
  | Rejected e =>
      if isRateLimitError e && (a <? maxAttempts policy)%nat
      then run (bounded_loop r (attempt_body policy params)
                  (mkLoopState (S a) (d * backoffMultiplier policy)))
               (loop_backoff policy (with_call params w) d)
      else (Fulfilled (inr (GaveUp e)), with_call params w)
  end.
Proof.
  simpl. destruct (api _ params) as [resp|e]; [reflexivity|]. simpl.
  destruct (isRateLimitError e && _); reflexivity.
Qed.

(** The loop from attempt [a] with [r] attempts left after this one
    behaves as the recursive code with [r] retries left. *)
Lemma loop_equiv (policy : RetryPolicy) (r a : nat) (d : Z) (w1 w2 : World) :
  (a + r = maxAttempts policy)%nat -> backoffMultiplier policy = 2%Z ->
  jitterRange policy = 500 -> same_obs w1 w2 ->
  let '(x, w1') := run (bounded_loop (S r) (attempt_body policy params) (mkLoopState a d)) w1 in
  let '(o, w2') := run (generateContentWithRetry (Some client) params r d) w2 in
  same_obs w1' w2' /\
  match o with
  | Fulfilled resp => x = Fulfilled (inr (Succeeded resp))
  | Rejected e => x = Fulfilled (inr (GaveUp e))
  end.
Proof.
  intros Ha Hm Hj. revert a d w1 w2 Ha.
  induction r as [|r IH]; intros a d w1 w2 Ha (Hc & Hd & Hs);
    rewrite run_loop, run_retry, Hc;
    destruct (api _ params) as [resp|e];
    try (unfold same_obs; simpl; rewrite Hc, Hd, Hs; auto; fail).
  - replace (a <? maxAttempts policy)%nat with false by (symmetry; apply Nat.ltb_ge; lia).
    rewrite andb_false_r. unfold same_obs; simpl; rewrite Hc, Hd, Hs; auto.
  - replace (a <? maxAttempts policy)%nat with true by (symmetry; apply Nat.ltb_lt; lia).
    rewrite andb_true_r, Hm. destruct (isRateLimitError e).
    + apply IH; [lia|]. unfold same_obs; simpl. rewrite Hc, Hd, Hs, Hj. auto.
    + unfold same_obs; simpl; rewrite Hc, Hd, Hs; auto.
Qed.

(** C11: Equivalence: the explicit loop of the specification, with [retries + 1]
    attempts, multiplier 2 and jitter range 500, and the recursive
    [generateContentWithRetry] with [retries] retries settle the same way
    after the same calls, draws and sleeps, for every answer sequence of
    the API and every random source. *)
Theorem generateWithRetry_equiv (policy : RetryPolicy) (retries : nat) (w1 w2 : World) :
  maxAttempts policy = S retries -> backoffMultiplier policy = 2%Z ->
  jitterRange policy = 500 -> same_obs w1 w2 ->
  let '(o1, w1') := run (generateWithRetry policy params) w1 in
  let '(o2, w2') := run (generateContentWithRetry (Some client) params retries
                           (baseDelay policy)) w2 in
  o1 = o2 /\ same_obs w1' w2'.
Proof.
  intros HM Hm Hj Hw. unfold generateWithRetry. rewrite HM, run_bind.
  pose proof (loop_equiv policy retries 1 (baseDelay policy) w1 w2 ltac:(lia) Hm Hj Hw) as H.
  destruct (run (bounded_loop _ _ _) w1) as [x w1'].
  destruct (run (generateContentWithRetry _ _ _ _) w2) as [[resp|e] w2'];
    destruct H as [Hw' ->]; simpl; auto.
Qed.

End Equivalence.

Lemma generateWithRetry_equiv_witness :
  RetryLoop.maxAttempts RetryLoop.default_policy = 4%nat /\
  RetryLoop.backoffMultiplier RetryLoop.default_policy = 2%Z /\
  RetryLoop.jitterRange RetryLoop.default_policy = 500 /\
  same_obs world0 world0 /\
  let '(o1, w1') := Async.run GeminiFixtures.twice_429 GeminiFixtures.half
      (RetryLoop.generateWithRetry RetryLoop.default_policy GeminiFixtures.tagline_params) world0 in
  let '(o2, w2') := Async.run GeminiFixtures.twice_429 GeminiFixtures.half
      (GeminiService.generateContentWithRetry (Some GeminiFixtures.client)
         GeminiFixtures.tagline_params 3 (RetryLoop.baseDelay RetryLoop.default_policy)) world0 in
  o1 = o2 /\ same_obs w1' w2'.
Proof.
  assert (Hw : same_obs world0 world0) by (repeat split).
  split; [reflexivity|]. split; [reflexivity|]. split; [reflexivity|]. split; [exact Hw|].
  exact (generateWithRetry_equiv GeminiFixtures.twice_429 GeminiFixtures.half
           GeminiFixtures.client GeminiFixtures.tagline_params RetryLoop.default_policy 3
           world0 world0 eq_refl eq_refl eq_refl Hw).
Defined.
