(* ===== verification/Render.v ===== *)
(** * Render: the itinerary view of [src/components/ServicesSection.tsx]

    Line 244 renders the itinerary text as HTML:
    [itinerary.replace(/### ( .* )/g, '<h4 ..>$1</h4>')
              .replace(/\*\*( .*? )\*\*/g, '<strong ..>$1</strong>')]
    (spaces added inside the groups to keep this comment well formed)
    passed to [dangerouslySetInnerHTML].

    [replace_g m f s] is [String.prototype.replace] with a global regular
    expression whose matcher at a position is [m]: from [lastIndex = 0],
    try a match at [lastIndex]; on a match, emit [f] of the captured group
    and continue after it; otherwise emit the character and try at the
    next position.  Neither expression matches the empty string, so the
    empty-match rule of [replace] does not arise.  "." is any character
    but a line terminator (LF, CR, U+2028, U+2029; the last two as their
    UTF-8 bytes).  [replace_all] is the loop with fuel; [replace_g] runs
    it with [length s + 1] steps, and [replace_all_enough] shows that any
    larger fuel gives the same string.

    The theorems: a heading line and a bold span are rendered as the code
    means, and any text without [#] and [*] is injected unchanged, so the
    markup of the API's answer reaches the page as HTML. *)

From Stdlib Require Import String Ascii List Bool Lia.
From S2P Require Import Prelude Gemini.
Import ListNotations.
Local Open Scope string_scope.

Module Render.

(** The line terminators of ECMAScript, as UTF-8 bytes: LF, CR, U+2028
    and U+2029. *)
Definition at_line_terminator (s : string) : bool :=
  String.prefix (String "010" EmptyString) s ||
  String.prefix (String "013" EmptyString) s ||
  String.prefix (String "226" (String "128" (String "168" EmptyString))) s ||
  String.prefix (String "226" (String "128" (String "169" EmptyString))) s.

(** The rest of [s] after the literal [p], if [s] starts with [p]. *)
Fixpoint strip_prefix (p s : string) : option string :=
  match p, s with
  | EmptyString, _ => Some s
  | String a p', String b s' => if Ascii.eqb a b then strip_prefix p' s' else None
  | String _ _, EmptyString => None
  end.

(** [( .* )] greedy: the longest prefix without a line terminator, and the
    rest of the string. *)
Fixpoint take_line (s : string) : string * string :=
  if at_line_terminator s then (EmptyString, s)
  else match s with
       | EmptyString => (EmptyString, EmptyString)
       | String c s' => let (g, rest) := take_line s' in (String c g, rest)
       end.

(** [( .*? )\*\*] lazy: the shortest prefix without a line terminator that
    is followed by [**], and what follows the [**]. *)
Fixpoint find_close (s : string) : option (string * string) :=
  if at_line_terminator s then None
  else match strip_prefix "**" s with
       | Some rest => Some (EmptyString, rest)
       | None =>
           match s with
           | EmptyString => None
           | String c s' =>
               match find_close s' with
               | Some (g, rest) => Some (String c g, rest)
               | None => None
               end
           end
       end.

(** A match of [/### ( .* )/] at the start of the string. *)
Definition match_heading (s : string) : option (string * string) :=
  match strip_prefix "### " s with
  | Some r => Some (take_line r)
  | None => None
  end.

(** A match of [/\*\*( .*? )\*\*/] at the start of the string. *)
Definition match_bold (s : string) : option (string * string) :=
  match strip_prefix "**" s with
  | Some r => find_close r
  | None => None
  end.

(** The global [replace] loop, with fuel. *)
Fixpoint replace_all (fuel : nat) (m : string -> option (string * string))
    (f : string -> string) (s : string) : string :=
  match fuel with
  | O => s
  | S fuel' =>
      match s with
      | EmptyString => EmptyString
      | String c s' =>
          match m s with
          | Some (g, rest) => f g ++ replace_all fuel' m f rest
          | None => String c (replace_all fuel' m f s')
          end
      end
  end.

Definition replace_g (m : string -> option (string * string)) (f : string -> string)
    (s : string) : string :=
  replace_all (S (String.length s)) m f s.

Definition h4 (g : string) : string :=
  "<h4 class=" ++ GeminiService.dq ++ "text-xl font-bold text-brand-green mt-4 mb-2" ++ GeminiService.dq ++ ">" ++
  g ++ "</h4>".

Definition strong (g : string) : string :=
  "<strong class=" ++ GeminiService.dq ++ "font-semibold text-brand-green" ++ GeminiService.dq ++ ">" ++
  g ++ "</strong>".

(** The [__html] of the itinerary view. *)
Definition itinerary_html (itinerary : string) : string :=
  replace_g match_bold strong (replace_g match_heading h4 itinerary).

(** No line terminator starts anywhere in [s]: [s] is within one line. *)
Fixpoint no_lt (s : string) : bool :=
  match s with
  | EmptyString => true
  | String _ s' => negb (at_line_terminator s) && no_lt s'
  end.

(** The number of occurrences of [p] in [s], counted at every position. *)
Fixpoint count_occ (s p : string) : nat :=
  match s with
  | EmptyString => 0
  | String _ s' => (if String.prefix p s then 1 else 0) + count_occ s' p
  end.

(** An answer of the API carrying markup with a script handler. *)
Definition img_onerror : string :=
  "<img src=x onerror=" ++ GeminiService.dq ++ "alert(document.cookie)" ++ GeminiService.dq ++ ">".

End Render.


(** ** Lemmas on the matchers *)

Section RenderLemmas.
Import Render.

Lemma strip_prefix_app (p s : string) : strip_prefix p (p ++ s) = Some s.
Proof.
  induction p as [|a p IH]; simpl; [destruct s; reflexivity|].
  rewrite Ascii.eqb_refl. exact IH.
Qed.

Lemma strip_prefix_length (p s r : string) :
  strip_prefix p s = Some r -> String.length s = String.length p + String.length r.
Proof.
  revert s. induction p as [|a p IH]; intros [|b s]; simpl; try discriminate.
  - intros H. injection H as <-. reflexivity.
  - intros H. injection H as <-. reflexivity.
  - destruct (Ascii.eqb a b); [|discriminate]. intros H. rewrite (IH s H). reflexivity.
Qed.

Lemma strip_prefix_head (p s r : string) (a : ascii) (p' : string) :
  p = String a p' -> strip_prefix p s = Some r -> exists s', s = String a s'.
Proof.
  intros ->. destruct s as [|b s']; simpl; [discriminate|].
  destruct (Ascii.eqb_spec a b) as [<-|]; [eauto | discriminate].
Qed.

Lemma prefix_empty_l (s : string) : String.prefix EmptyString s = true.
Proof. destruct s; reflexivity. Qed.

Lemma at_line_terminator_app_star (s u : string) :
  s <> EmptyString -> at_line_terminator (s ++ String "*" u) = at_line_terminator s.
Proof.
  intros Hs. destruct s as [|c1 [|c2 [|c3 s]]]; [contradiction| | |];
    unfold at_line_terminator; cbn [String.prefix append];
    repeat (destruct (ascii_dec _ _); subst; try discriminate);
    rewrite ?prefix_empty_l; reflexivity.
Qed.

Lemma take_line_no_lt (t : string) : no_lt t = true -> take_line t = (t, EmptyString).
Proof.
  induction t as [|c t IH]; [reflexivity|].
  cbn [no_lt take_line]. intros H. apply andb_prop in H as [H1 H2].
  apply negb_true_iff in H1. rewrite H1, (IH H2). reflexivity.
Qed.

Lemma includes_head (c : ascii) (t : string) (x : ascii) :
  Js.includes (String c t) (String x EmptyString) = false -> c <> x /\ Js.includes t (String x EmptyString) = false.
Proof.
  intros H. cbn [Js.includes String.prefix] in H.
  destruct (ascii_dec x c) as [->|Hne]; [rewrite prefix_empty_l in H; discriminate|].
  split; [congruence | exact H].
Qed.

(** The lazy group of a span without stars ends at the first [**]. *)
Lemma find_close_span (t : string) :
  no_lt t = true -> Js.includes t "*" = false ->
  find_close (t ++ "**") = Some (t, EmptyString).
Proof.
  induction t as [|c t IH]; [reflexivity|].
  cbn [no_lt]. intros Hl Hs. apply andb_prop in Hl as [H1 H2].
  apply negb_true_iff in H1. apply includes_head in Hs as [Hc Hs].
  change (String c t ++ "**") with (String c (t ++ "**")).
  cbn [find_close]. change (String c (t ++ "**")) with (String c t ++ String "*" "*").
  rewrite at_line_terminator_app_star, H1 by discriminate.
  change (String c t ++ String "*" "*") with (String c (t ++ "**")).
  cbn [strip_prefix]. destruct (Ascii.eqb_spec "*" c) as [E|_]; [congruence|].
  rewrite (IH H2 Hs). reflexivity.
Qed.

Lemma take_line_length (s : string) :
  String.length (snd (take_line s)) <= String.length s.
Proof.
  induction s as [|c s IH]; cbn [take_line]; [destruct (at_line_terminator EmptyString); simpl; lia|].
  destruct (at_line_terminator (String c s)); simpl; [lia|].
  destruct (take_line s) as [g rest]. simpl in *. lia.
Qed.

Lemma find_close_length (s g rest : string) :
  find_close s = Some (g, rest) -> String.length rest < String.length s.
Proof.
  revert g rest. induction s as [|c s IH]; intros g rest; cbn [find_close].
  - destruct (at_line_terminator EmptyString); discriminate.
  - destruct (at_line_terminator (String c s)); [discriminate|].
    destruct (strip_prefix "**" (String c s)) as [r|] eqn:E.
    + intros H. injection H as <- <-. apply strip_prefix_length in E. simpl in *. lia.
    + destruct (find_close s) as [[g' r']|] eqn:F; [|discriminate].
      intros H. injection H as <- <-. pose proof (IH g' r' eq_refl). simpl. lia.
Qed.

Lemma match_heading_consumes (s g rest : string) :
  match_heading s = Some (g, rest) -> String.length rest < String.length s.
Proof.
  unfold match_heading. destruct (strip_prefix "### " s) as [r|] eqn:E; [|discriminate].
  intros H. injection H as H. apply strip_prefix_length in E.
  pose proof (take_line_length r) as L. rewrite H in L. simpl in *. lia.
Qed.

Lemma match_bold_consumes (s g rest : string) :
  match_bold s = Some (g, rest) -> String.length rest < String.length s.
Proof.
  unfold match_bold. destruct (strip_prefix "**" s) as [r|] eqn:E; [|discriminate].
  intros H. apply find_close_length in H. apply strip_prefix_length in E. simpl in *. lia.
Qed.

Lemma replace_all_match m f (n : nat) (c : ascii) (s g rest : string) :
  m (String c s) = Some (g, rest) ->
  replace_all (S n) m f (String c s) = f g ++ replace_all n m f rest.
Proof. intros H. cbn [replace_all]. rewrite H. reflexivity. Qed.

Lemma replace_all_empty m f (n : nat) : replace_all n m f EmptyString = EmptyString.
Proof. destruct n; reflexivity. Qed.

(** A matcher that only matches at the character [x] leaves a string
    without [x] unchanged. *)
Lemma replace_all_skip m f (x : ascii) (n : nat) (s : string) :
  (forall s' r, m s' = Some r -> exists s'', s' = String x s'') ->
  Js.includes s (String x EmptyString) = false -> replace_all n m f s = s.
Proof.
  intros Hm. revert s. induction n as [|n IH]; intros s Hs; [reflexivity|].
  destruct s as [|c s]; [reflexivity|]. cbn [replace_all].
  apply includes_head in Hs as [Hc Hs].
  destruct (m (String c s)) as [r|] eqn:E.
  - destruct (Hm _ _ E) as [s'' Hs'']. injection Hs'' as ->. contradiction.
  - rewrite (IH s Hs). reflexivity.
Qed.

End RenderLemmas.

#[export] Hint Rewrite replace_all_empty : nerza_rw.

(** ** The replace loop *)

Section ReplaceLoop.
Import Render.
Variable m : string -> option (string * string).
Variable f : string -> string.
Hypothesis m_consumes :
  forall s g rest, m s = Some (g, rest) -> String.length rest < String.length s.

Lemma replace_all_fuel (n1 n2 : nat) (s : string) :
  String.length s < n1 -> String.length s < n2 ->
  replace_all n1 m f s = replace_all n2 m f s.
Proof.
  revert n2 s.
  induction n1 as [|n1 IH]; intros [|n2] s H1 H2; try lia.
  destruct s as [|c s']; [reflexivity|]. cbn [replace_all]. simpl in H1, H2.
  destruct (m (String c s')) as [[g rest]|] eqn:E.
  - pose proof (m_consumes _ _ _ E) as Hl. simpl in Hl. f_equal. apply IH; lia.
  - f_equal. apply IH; lia.
Qed.

End ReplaceLoop.

Section RenderTheorems.
Import Render.

(** The fuel of [replace_g] is enough: with more steps than the text has
    characters, both loops have finished, and any larger fuel gives the
    same HTML. *)
Lemma replace_all_enough (n : nat) (s : string) :
  String.length s < n ->
  replace_all n match_heading h4 s = replace_g match_heading h4 s /\
  replace_all n match_bold strong s = replace_g match_bold strong s.
Proof.
  intros H. unfold replace_g. split; apply replace_all_fuel; try lia.
  - exact match_heading_consumes.
  - exact match_bold_consumes.
Qed.

(** C34: A line [### t] is rendered as the heading [<h4 ..>t</h4>]: the
    greedy group takes the whole rest of the line. *)
Theorem heading_line (t : string) :
  no_lt t = true -> replace_g match_heading h4 ("### " ++ t) = h4 t.
Proof.
  intros Ht. unfold replace_g. change ("### " ++ t) with (String "#" ("## " ++ t)).
  rewrite (replace_all_match _ _ _ _ _ t EmptyString).
  - autorewrite with nerza_rw. reflexivity.
  - change (String "#" ("## " ++ t)) with ("### " ++ t).
    unfold match_heading. rewrite strip_prefix_app, take_line_no_lt by exact Ht. reflexivity.
Qed.

(** C35: A span [**t**] within a line and without stars is rendered as
    [<strong ..>t</strong>]. *)
Theorem bold_span (t : string) :
  no_lt t = true -> Js.includes t "*" = false ->
  replace_g match_bold strong ("**" ++ t ++ "**") = strong t.
Proof.
  intros Hl Hs. unfold replace_g. change ("**" ++ t ++ "**") with (String "*" ("*" ++ (t ++ "**"))).
  rewrite (replace_all_match _ _ _ _ _ t EmptyString).
  - autorewrite with nerza_rw. reflexivity.
  - change (String "*" ("*" ++ (t ++ "**"))) with ("**" ++ (t ++ "**")).
    unfold match_bold. rewrite strip_prefix_app. exact (find_close_span t Hl Hs).
Qed.

(** C33: The itinerary is injected as HTML without escaping: a text
    without [#] and [*], whatever markup it holds, reaches
    [dangerouslySetInnerHTML] unchanged. *)
Theorem markup_injected (s : string) :
  Js.includes s "#" = false -> Js.includes s "*" = false -> itinerary_html s = s.
Proof.
  intros Hh Hb. unfold itinerary_html, replace_g.
  rewrite (replace_all_skip match_heading h4 "#") by (exact Hh || (intros s' r E; unfold match_heading in E;
    destruct (strip_prefix "### " s') eqn:S; [|discriminate]; exact (strip_prefix_head _ _ _ _ _ eq_refl S))).
  apply (replace_all_skip _ _ "*"); [|exact Hb].
  intros s' r E. unfold match_bold in E.
  destruct (strip_prefix "**" s') eqn:S; [|discriminate]. exact (strip_prefix_head _ _ _ _ _ eq_refl S).
Qed.

End RenderTheorems.

Lemma heading_line_witness :
  Render.no_lt "Jour 1: Agadir" = true /\
  Render.replace_g Render.match_heading Render.h4 ("### " ++ "Jour 1: Agadir") =
    Render.h4 "Jour 1: Agadir".
Proof. split; [reflexivity | apply heading_line; reflexivity]. Defined.

Lemma bold_span_witness :
  Render.no_lt "Le Flore" = true /\ Js.includes "Le Flore" "*" = false /\
  Render.replace_g Render.match_bold Render.strong ("**" ++ "Le Flore" ++ "**") =
    Render.strong "Le Flore".
Proof. split; [reflexivity | split; [reflexivity | apply bold_span; reflexivity]]. Defined.

Lemma markup_injected_witness :
  Js.includes Render.img_onerror "#" = false /\ Js.includes Render.img_onerror "*" = false /\
  Render.itinerary_html Render.img_onerror = Render.img_onerror.
Proof. split; [reflexivity | split; [reflexivity | apply markup_injected; reflexivity]]. Defined.

