(* ===== verification/App.v ===== *)
(** * App: the page of [src/docs/App.tsx]

    The page keeps three hooks ([isLoading], [tagline], [error], lines
    10-13) and, once on mount (lines 31-34), runs [fetchContent]
    (lines 15-29): loading on, error cleared, [await
    generateAgencyContent()], tagline set, loading off; the [catch] shows
    an error message.

    The page only needs a content source whose request always resolves:
    that promise is the class [ContentService].  The page's theorem is
    proved against the class; the instance for the Gemini service
    discharges it with [generateAgencyContent_total], so the page never
    shows its error message.  The page's markup is [AppView] of [View]. *)

From Stdlib Require Import String ZArith QArith List.
From S2P Require Import Prelude Async Gemini.
Import ListNotations.
Local Open Scope string_scope.
Local Open Scope async_scope.

Module App.
Import GeminiService.

Record State := mkState {
  isLoading : bool;
  tagline : string;
  error : option string
}.

Definition init : State :=
  mkState true "Vivez une expérience inoubliable au Maroc." None.

Definition msg_content_error : string :=
  "Erreur de chargement du contenu. Le contenu par défaut est affiché.".

(** [fetchContent], with the content request as a parameter; the state
    is threaded through the promise. *)
Definition fetchContent (request : Async AgencyContent) (s : State) : Async State :=
  let s1 := mkState true (tagline s) None in
  s2 <- tryCatch
          (content <- request ;;
           (* [if (content)]: an object is always truthy *)
           Ret (mkState (isLoading s1) (GeminiService.tagline content) (error s1)))
          (fun err =>
             log (ErrorLog "Failed to fetch AI content:" err) ;;
             Ret (mkState (isLoading s1) (tagline s1) (Some msg_content_error))) ;;
  Ret (mkState false (tagline s2) (error s2)).

(** What the page needs of its content source. *)
Class ContentService := {
  fetch_content : Async AgencyContent;
  fetch_content_resolves :
    forall api rnd w, exists c, fst (run api rnd fetch_content w) = Fulfilled c
}.

#[export] Instance gemini_content (cfg : Config) : ContentService := {
  fetch_content := generateAgencyContent cfg;
  fetch_content_resolves api rnd w :=
    match generateAgencyContent_total api rnd cfg w with
    | ex_intro _ t H => ex_intro _ (mkAgencyContent t) H
    end
}.

End App.

Section AppTheorems.
Import GeminiService App.

(** Against any content source that always resolves, the page ends with
    loading off, no error, and the tagline of the content. *)
Lemma fetchContent_resolves `{ContentService} api rnd (w : World) (s : State) :
  exists c, fst (run api rnd (fetchContent fetch_content s) w) =
            Fulfilled (mkState false (GeminiService.tagline c) None).
Proof.
  destruct (fetch_content_resolves api rnd w) as [c Hc]. exists c.
  unfold fetchContent. rewrite run_bind, run_tryCatch, run_bind.
  destruct (run api rnd fetch_content w) as [o w']. simpl in Hc. subst o. reflexivity.
Qed.

(** The final state of the page's load, whatever the configuration and
    the API: loading off, no error, the fallback or an API tagline. *)
Lemma fetchContent_agency (cfg : Config) api rnd (w : World) :
  exists t, fst (run api rnd (fetchContent (generateAgencyContent cfg) init) w) =
            Fulfilled (mkState false t None) /\
    (t = fallbackTagline \/
     exists i r, api i (flash taglinePrompt (7 # 10)) = Fulfilled r /\ t = text r).
Proof.
  destruct (fallback_result api rnd cfg taglinePrompt fallbackTagline w)
    as (t & Ht & Hsrc).
  exists t. split; [|exact Hsrc].
  unfold fetchContent, generateAgencyContent.
  rewrite run_bind, run_tryCatch, run_bind, run_bind.
  destruct (run api rnd (generateWithFallback cfg taglinePrompt fallbackTagline) w) as [o w'].
  simpl in Ht. subst o. reflexivity.
Qed.

(** C19: Whatever the configuration and the answers of the API, loading the
    page ends with the spinner gone, no error message, and a tagline that
    is the fallback sentence or the text of an API answer to the tagline
    prompt: the [catch] branch of [fetchContent] is dead code. *)
Theorem page_never_shows_error (cfg : Config) api rnd (w : World) :
  exists t, fst (run api rnd (fetchContent (generateAgencyContent cfg) init) w) =
            Fulfilled (mkState false t None) /\
    (t = fallbackTagline \/
     exists i r, api i (flash taglinePrompt (7 # 10)) = Fulfilled r /\ t = text r).
Proof. exact (fetchContent_agency cfg api rnd w). Qed.

End AppTheorems.
