(* ===== verification/Header.v ===== *)
(** * Header: the image carousel of [src/components/Header.tsx]

    [SERVICES] ([src/constants.ts], lines 3-52) is the list of the agency's
    eight services.  The header keeps one hook, [currentImageIndex]
    (line 11); an interval set once on mount (lines 13-19) advances it
    every 5000 ms to [(prevIndex + 1) % SERVICES.length]; the title block
    (lines 41-47) shows the spinner while the page loads, the tagline
    after.  The markup of lines 21-57, with the opacity of each image, is
    [View.HeaderView].

    The theorems: after [n] ticks the index is [n mod 8], and every image
    comes back within eight ticks. *)

From Stdlib Require Import String ZArith List Lia.
From S2P Require Import Prelude.
Import ListNotations.
Local Open Scope string_scope.

Module Header.

(** [interface Service] of [src/types.ts]. *)
Record Service := mkService {
  id : Z;
  title : string;
  description : string;
  imageUrl : string
}.

Definition SERVICES : list Service := [
  mkService 1 "Location Villa & Appartement"
    "Séjours de luxe dans des propriétés exclusives avec vues imprenables."
    "https://picsum.photos/seed/villa/1920/1080";
  mkService 2 "Location de Voiture"
    "Explorez le Maroc à votre rythme avec notre flotte de véhicules premium."
    "https://picsum.photos/seed/car/1920/1080";
  mkService 3 "Canyoning à Tafraout"
    "Aventure et adrénaline au cœur des canyons spectaculaires de l'Atlas."
    "https://picsum.photos/seed/canyoning/1920/1080";
  mkService 4 "Parapente à Aglou"
    "Survolez la côte atlantique et admirez des paysages à couper le souffle."
    "https://picsum.photos/seed/paragliding/1920/1080";
  mkService 5 "Excursion en Quad"
    "Parcourez les dunes et les pistes désertiques pour une expérience intense."
    "https://picsum.photos/seed/quad/1920/1080";
  mkService 6 "Location de Vélo à Tafraout"
    "Découvrez les roches peintes et les villages berbères à VTT."
    "https://picsum.photos/seed/bike/1920/1080";
  mkService 7 "Surf à Taghazout/Aglou"
    "Domptez les vagues de spots de surf de renommée mondiale."
    "https://picsum.photos/seed/surf/1920/1080";
  mkService 8 "Soirées & Clubbing à Taghazout"
    "Accès VIP aux meilleures beach parties et soirées exclusives."
    "https://picsum.photos/seed/party/1920/1080"
].

(** [useState(0)]. *)
Definition init : Z := 0.

(** The interval's callback: [(prevIndex + 1) % SERVICES.length]; [%] is
    the truncated remainder [Z.rem]. *)
Definition tick (prevIndex : Z) : Z :=
  Z.rem (prevIndex + 1) (Z.of_nat (length SERVICES)).

(** The index after [n] firings of the interval. *)
Definition after_ticks (n : nat) : Z := Nat.iter n tick init.

(** What the title block shows (lines 41-47). *)
Inductive TitleBlock := Spinner | Tagline (t : string).

Definition title_block (tagline : string) (isLoading : bool) : TitleBlock :=
  if isLoading then Spinner else Tagline tagline.

End Header.

Section HeaderTheorems.
Import Header.

Lemma length_SERVICES : Z.of_nat (length SERVICES) = 8%Z.
Proof. reflexivity. Qed.

Lemma tick_mod (i : Z) : (0 <= i)%Z -> tick i = ((i + 1) mod 8)%Z.
Proof.
  intros H. unfold tick. rewrite length_SERVICES. apply Z.rem_mod_nonneg; lia.
Qed.

Lemma after_ticks_mod8 (n : nat) : after_ticks n = (Z.of_nat n mod 8)%Z.
Proof.
  unfold after_ticks. induction n as [|n IH]; [reflexivity|].
  rewrite Nat.iter_succ, IH, tick_mod by (apply Z.mod_pos_bound; lia).
  rewrite Nat2Z.inj_succ, Zplus_mod_idemp_l. reflexivity.
Qed.

(** C32: Every service's image is shown again within eight firings of the
    interval, from any moment on. *)
Theorem every_image_shown (j n : nat) :
  (j < 8)%nat -> exists m, (m < 8)%nat /\ after_ticks (n + m) = Z.of_nat j.
Proof.
  intros Hj. exists ((j + 8 - n mod 8) mod 8)%nat. split; [apply Nat.mod_upper_bound; lia|].
  rewrite after_ticks_mod8. change 8%Z with (Z.of_nat 8). rewrite <- Nat2Z.inj_mod.
  f_equal. rewrite Nat.Div0.add_mod_idemp_r.
  pose proof (Nat.mod_upper_bound n 8 ltac:(lia)) as Hn.
  rewrite (Nat.div_mod_eq n 8) at 1.
  replace (8 * (n / 8) + n mod 8 + (j + 8 - n mod 8))%nat with (j + (n / 8 + 1) * 8)%nat by lia.
  rewrite Nat.Div0.mod_add. apply Nat.mod_small. exact Hj.
Qed.

End HeaderTheorems.

Lemma every_image_shown_witness :
  (5 < 8)%nat /\ exists m, (m < 8)%nat /\ Header.after_ticks (13 + m) = 5%Z.
Proof. split; [lia | apply (every_image_shown 5 13); lia]. Defined.
