(* ===== verification/BookingModal.v ===== *)
(** * BookingModal: the service booking dialog of [src/components/BookingModal.tsx]

    The dialog is given a [Service] and two callbacks, [onClose] and
    [onConfirm].  Its only hook is [isSubmitting] (line 12); its form has
    five uncontrolled inputs (lines 42-63), all [required], the number of
    participants with [min="1"] and [defaultValue="1"].  [handleSubmit]
    (lines 14-22) sets [isSubmitting] and starts a 2 s timer that clears it
    and calls [onConfirm]; the submit button is [disabled] while
    submitting (line 71); the close button calls [onClose] (line 28).

    No component of the repository renders this dialog, so what the
    parent does with the callbacks is unknown: the model counts the calls
    of each callback and keeps the dialog mounted.  The browser's
    constraint validation, which decides whether the submit event fires
    at all, is a parameter [constraint_ok] of the section, with the one
    property the [required] attributes give it.

    The lemmas: in every reachable state at most one payment timer is
    running, exactly when the dialog shows "submitting"; every call of
    [onConfirm] follows a submission whose inputs passed validation; and
    closing the dialog does not cancel a payment in progress. *)

From Stdlib Require Import String ZArith List Bool Lia.
From S2P Require Import Prelude Header.
Import ListNotations.
Local Open Scope string_scope.

Module BookingModal.
Import Header.

(** The values of the five inputs. *)
Record Inputs := mkInputs {
  name : string;
  email : string;
  phone : string;
  date : string;
  participants : string
}.

Definition default_inputs : Inputs :=
  mkInputs EmptyString EmptyString EmptyString EmptyString "1".

(** The hook, the inputs, the running payment timers, and the calls of
    the two callbacks so far. *)
Record State := mkState {
  service : Service;
  inputs : Inputs;
  isSubmitting : bool;
  timers : nat;
  confirms : nat;
  closes : nat
}.

Definition init (svc : Service) : State := mkState svc default_inputs false 0 0 0.

Definition setInputs (i : Inputs) (s : State) : State :=
  mkState (service s) i (isSubmitting s) (timers s) (confirms s) (closes s).
Definition setIsSubmitting (b : bool) (s : State) : State :=
  mkState (service s) (inputs s) b (timers s) (confirms s) (closes s).

(** [e.preventDefault(); setIsSubmitting(true); setTimeout(.., 2000)] *)
Definition handleSubmit (s : State) : State :=
  let s1 := setIsSubmitting true s in
  mkState (service s1) (inputs s1) (isSubmitting s1) (S (timers s1)) (confirms s1) (closes s1).

(** The timer: [setIsSubmitting(false); onConfirm()]. *)
Definition payment_timer (s : State) : State :=
  let s1 := setIsSubmitting false s in
  mkState (service s1) (inputs s1) (isSubmitting s1) (pred (timers s1)) (S (confirms s1)) (closes s1).

(** The close button: [onClose()]. *)
Definition onClose (s : State) : State :=
  mkState (service s) (inputs s) (isSubmitting s) (timers s) (confirms s) (S (closes s)).

Inductive Event :=
| Input (i : Inputs)
| Submit
| TimerFires
| Close.

Section Step.
(** The browser's constraint validation of the form. *)
Variable constraint_ok : Inputs -> bool.

Definition step (s : State) (e : Event) : option State :=
  match e with
  | Input i => Some (setInputs i s)
  | Submit =>
      (* [disabled={isSubmitting}], and the submit event only fires on a
         form whose constraints hold *)
      if negb (isSubmitting s) && constraint_ok (inputs s) then Some (handleSubmit s) else None
  | TimerFires => match timers s with O => None | S _ => Some (payment_timer s) end
  | Close => Some (onClose s)
  end.

Inductive reachable (svc : Service) : State -> Prop :=
| reachable_init : reachable svc (init svc)
| reachable_step s e s' : reachable svc s -> step s e = Some s' -> reachable svc s'.

End Step.

End BookingModal.

Section BookingModalLemmas.
Import Header BookingModal.
Variable constraint_ok : Inputs -> bool.

Fixpoint run_events (s : State) (es : list Event) : option State :=
  match es with
  | [] => Some s
  | e :: es' =>
      match step constraint_ok s e with Some s' => run_events s' es' | None => None end
  end.

Definition count_submit (es : list Event) : nat :=
  length (filter (fun e => match e with Submit => true | _ => false end) es).

(** C13: In every reachable state of the dialog at most one payment timer
    runs, and one runs exactly while the dialog shows "submitting": the
    [disabled={isSubmitting}] button prevents a second payment. *)
Theorem reachable_one_timer (svc : Service) (s : State) :
  reachable constraint_ok svc s -> timers s = if isSubmitting s then 1 else 0.
Proof.
  induction 1 as [|s e s' _ IH H]; [reflexivity|].
  destruct e; simpl in H.
  - injection H as <-. exact IH.
  - destruct (negb (isSubmitting s) && constraint_ok (inputs s)) eqn:G; [|discriminate].
    injection H as <-. apply andb_prop in G as [G _].
    destruct (isSubmitting s); [discriminate|]. simpl. rewrite IH. reflexivity.
  - destruct (timers s) eqn:T; [discriminate|]. injection H as <-. simpl.
    rewrite T. destruct (isSubmitting s); simpl in *; lia.
  - injection H as <-. exact IH.
Qed.

(** C14: In every run of the dialog, the calls of [onConfirm] plus the
    timers still running are exactly the submissions the browser let
    through: every payment confirmed was submitted once, and none is
    lost or confirmed twice. *)
Theorem run_confirms (s s' : State) (es : list Event) :
  run_events s es = Some s' ->
  (confirms s' + timers s' = confirms s + timers s + count_submit es)%nat.
Proof.
  revert s. induction es as [|e es IH]; intros s H; simpl in H.
  - injection H as <-. unfold count_submit. simpl. lia.
  - destruct (step constraint_ok s e) as [s1|] eqn:E; [|discriminate].
    rewrite (IH s1 H). unfold count_submit. destruct e; simpl in E |- *.
    + injection E as <-. simpl. lia.
    + destruct (negb (isSubmitting s) && constraint_ok (inputs s)); [|discriminate].
      injection E as <-. simpl. lia.
    + destruct (timers s) eqn:T; [discriminate|]. injection E as <-. simpl. rewrite T. simpl. lia.
    + injection E as <-. simpl. lia.
Qed.

(** Closing the dialog does not cancel the payment: after a submission,
    [onClose] and then the timer, [onConfirm] has been called. *)
Lemma close_does_not_cancel (svc : Service) (i : Inputs) :
  constraint_ok i = true ->
  option_map (fun s => (confirms s, closes s))
    (run_events (init svc) [Input i; Submit; Close; TimerFires]) = Some (1%nat, 1%nat).
Proof. intros H. simpl. rewrite H. reflexivity. Qed.

End BookingModalLemmas.

(** The first service's dialog, after one submission. *)
Lemma reachable_one_timer_witness :
  let svc := hd (Header.mkService 0 EmptyString EmptyString EmptyString) Header.SERVICES in
  BookingModal.reachable (fun _ => true) svc (BookingModal.handleSubmit (BookingModal.init svc)) /\
  BookingModal.timers (BookingModal.handleSubmit (BookingModal.init svc)) =
    (if BookingModal.isSubmitting (BookingModal.handleSubmit (BookingModal.init svc)) then 1 else 0)%nat.
Proof.
  intros svc.
  assert (H : BookingModal.reachable (fun _ => true) svc
                (BookingModal.handleSubmit (BookingModal.init svc))).
  { apply (BookingModal.reachable_step _ svc (BookingModal.init svc) BookingModal.Submit).
    - apply BookingModal.reachable_init.
    - reflexivity. }
  split; [exact H | exact (reachable_one_timer (fun _ => true) svc _ H)].
Defined.

(** Submit, close, the timer fires, submit again: one confirmation, one
    timer running. *)
Lemma run_confirms_witness :
  let svc := hd (Header.mkService 0 EmptyString EmptyString EmptyString) Header.SERVICES in
  let es := [BookingModal.Submit; BookingModal.Close; BookingModal.TimerFires; BookingModal.Submit] in
  run_events (fun _ => true) (BookingModal.init svc) es =
    Some (BookingModal.mkState svc BookingModal.default_inputs true 1 1 1) /\
  (BookingModal.confirms (BookingModal.mkState svc BookingModal.default_inputs true 1 1 1) +
   BookingModal.timers (BookingModal.mkState svc BookingModal.default_inputs true 1 1 1) =
   BookingModal.confirms (BookingModal.init svc) + BookingModal.timers (BookingModal.init svc) +
   count_submit es)%nat.
Proof.
  intros svc es.
  assert (H : run_events (fun _ => true) (BookingModal.init svc) es =
              Some (BookingModal.mkState svc BookingModal.default_inputs true 1 1 1)) by reflexivity.
  split; [exact H | exact (run_confirms (fun _ => true) _ _ es H)].
Defined.
