(* ===== verification/TripForm.v ===== *)
(** * TripForm: the [ServicesSection] component

    [src/components/ServicesSection.tsx] and the finalisation dialog it
    renders ([src/docs/components/BookingFinalizationModal.tsx]).

    - [State] holds the component's [useState] hooks (lines 43-55), the
      dialog's [isSubmitting] hook (modal line 22) and the continuations
      that are still pending: the awaited [generateItinerary] call of
      [handleSubmit], the dialog's 1.5 s payment timer and the 5 s timer of
      [handleConfirmBooking].  A pending submission carries the values its
      closure captured.
    - One function per handler: [setRegion] (with the [useEffect] on
      [region], lines 59-62), [handleInterestChange] (64-74), the duration
      input's [onChange] (194), [handleSubmit] (76-102) split at its
      [await] into [handleSubmit] and [submit_settled], [handleReset]
      (104-110), [handleFullReset] (112-119), [handleConfirmBooking]
      (121-128), the dialog's [handleConfirm] (modal 24-31).
    - [step] is one user or environment event; its guard is the JSX that
      renders the control (lines 143-269): a control can only be used when
      it is rendered and not [disabled].  [reachable] is the closure of
      [step] from [init].
    - [details] is what the form passes to the dialog, [summary] what the
      dialog displays of it (modal lines 57-77). *)

From Stdlib Require Import String Ascii ZArith QArith List Bool Lia.
From S2P Require Import Prelude Async JsNumber Gemini Pricing.
Import ListNotations.

Module TripForm.
Import GeminiService Pricing.
Local Open Scope string_scope.

(** ** Data *)

Inductive Interest :=
| FarnientePlage | SurfSportsNautiques | GastronomieVieNocturne | GolfResorts
| TrekkingMontagne | AventureAdrenaline | CultureBerbere | NuitsBivouac.

Definition Interest_eq_dec (a b : Interest) : {a = b} + {a <> b}.
Proof. decide equality. Defined.

Definition interest_label (i : Interest) : string :=
  match i with
  | FarnientePlage => "Farniente & Plage"
  | SurfSportsNautiques => "Surf & Sports Nautiques"
  | GastronomieVieNocturne => "Gastronomie & Vie Nocturne"
  | GolfResorts => "Golf & Resorts"
  | TrekkingMontagne => "Trekking en Montagne"
  | AventureAdrenaline => "Aventure & Adrénaline"
  | CultureBerbere => "Culture Berbère"
  | NuitsBivouac => "Nuits en Bivouac"
  end.

Definition AGADIR_INTERESTS : list Interest :=
  [FarnientePlage; SurfSportsNautiques; GastronomieVieNocturne; GolfResorts].
Definition REGION_INTERESTS : list Interest :=
  [TrekkingMontagne; AventureAdrenaline; CultureBerbere; NuitsBivouac].

(** [region === 'Agadir' ? AGADIR_INTERESTS : REGION_INTERESTS] *)
Definition interestOptions (r : option region) : list Interest :=
  match r with
  | Some Agadir => AGADIR_INTERESTS
  | _ => REGION_INTERESTS
  end.

(** The literal unions of the request's TypeScript types: a [budget] that
    is a [Budget], [interests] that are [Interest]s offered for the
    request's region, and a duration the input's clamp allows. *)
Definition request_typed (p : ItineraryParams) : bool :=
  existsb (String.eqb (GeminiService.budget p)) (map budget_label BUDGET_OPTIONS) &&
  forallb (fun i => existsb (String.eqb i) (map interest_label (interestOptions (Some (region_of p)))))
          (GeminiService.interests p) &&
  (1 <=? GeminiService.duration p)%Z.

Definition region_eqb (a b : option region) : bool :=
  match a, b with
  | None, None | Some Agadir, Some Agadir | Some Region, Some Region => true
  | _, _ => false
  end.

(** A JavaScript [Set<Interest>]: a duplicate-free list in insertion
    order, which [Array.from] returns. *)
Definition set_has (s : list Interest) (i : Interest) : bool :=
  existsb (fun j => if Interest_eq_dec i j then true else false) s.
Definition set_delete (s : list Interest) (i : Interest) : list Interest :=
  filter (fun j => if Interest_eq_dec i j then false else true) s.
Definition set_add (s : list Interest) (i : Interest) : list Interest :=
  if set_has s i then s else s ++ [i].

(** A continuation still to run. *)
Inductive Pending :=
| PSubmit (request : ItineraryParams) (budget : Budget) (duration : Z)
| PPayment
| PReset.

Record State := mkState {
  name : string;
  email : string;
  phone : string;
  region_sel : option region;
  interests : list Interest;
  duration : Z;
  budget : Budget;
  itinerary : option string;
  isLoading : bool;
  error : option string;
  finalPrice : option Z;
  isFinalizeModalOpen : bool;
  isConfirmed : bool;
  isSubmitting : bool;
  pending : list Pending
}.

Definition init : State :=
  mkState EmptyString EmptyString EmptyString None [] 3 Confort None false None None
          false false false [].

(** ** The state setters

    Each [setX] is the setter of one [useState] hook; a handler is the
    sequence of setter calls of its body (React applies them in order
    when it re-renders). *)

Definition setName v s := mkState v (email s) (phone s) (region_sel s) (interests s) (duration s) (budget s) (itinerary s) (isLoading s) (error s) (finalPrice s) (isFinalizeModalOpen s) (isConfirmed s) (isSubmitting s) (pending s).
Definition setEmail v s := mkState (name s) v (phone s) (region_sel s) (interests s) (duration s) (budget s) (itinerary s) (isLoading s) (error s) (finalPrice s) (isFinalizeModalOpen s) (isConfirmed s) (isSubmitting s) (pending s).
Definition setPhone v s := mkState (name s) (email s) v (region_sel s) (interests s) (duration s) (budget s) (itinerary s) (isLoading s) (error s) (finalPrice s) (isFinalizeModalOpen s) (isConfirmed s) (isSubmitting s) (pending s).
Definition setInterests v s := mkState (name s) (email s) (phone s) (region_sel s) v (duration s) (budget s) (itinerary s) (isLoading s) (error s) (finalPrice s) (isFinalizeModalOpen s) (isConfirmed s) (isSubmitting s) (pending s).
Definition setDuration v s := mkState (name s) (email s) (phone s) (region_sel s) (interests s) v (budget s) (itinerary s) (isLoading s) (error s) (finalPrice s) (isFinalizeModalOpen s) (isConfirmed s) (isSubmitting s) (pending s).
Definition setBudget v s := mkState (name s) (email s) (phone s) (region_sel s) (interests s) (duration s) v (itinerary s) (isLoading s) (error s) (finalPrice s) (isFinalizeModalOpen s) (isConfirmed s) (isSubmitting s) (pending s).
Definition setItinerary v s := mkState (name s) (email s) (phone s) (region_sel s) (interests s) (duration s) (budget s) v (isLoading s) (error s) (finalPrice s) (isFinalizeModalOpen s) (isConfirmed s) (isSubmitting s) (pending s).
Definition setIsLoading v s := mkState (name s) (email s) (phone s) (region_sel s) (interests s) (duration s) (budget s) (itinerary s) v (error s) (finalPrice s) (isFinalizeModalOpen s) (isConfirmed s) (isSubmitting s) (pending s).
Definition setError v s := mkState (name s) (email s) (phone s) (region_sel s) (interests s) (duration s) (budget s) (itinerary s) (isLoading s) v (finalPrice s) (isFinalizeModalOpen s) (isConfirmed s) (isSubmitting s) (pending s).
Definition setFinalPrice v s := mkState (name s) (email s) (phone s) (region_sel s) (interests s) (duration s) (budget s) (itinerary s) (isLoading s) (error s) v (isFinalizeModalOpen s) (isConfirmed s) (isSubmitting s) (pending s).
Definition setIsFinalizeModalOpen v s := mkState (name s) (email s) (phone s) (region_sel s) (interests s) (duration s) (budget s) (itinerary s) (isLoading s) (error s) (finalPrice s) v (isConfirmed s) (isSubmitting s) (pending s).
Definition setIsConfirmed v s := mkState (name s) (email s) (phone s) (region_sel s) (interests s) (duration s) (budget s) (itinerary s) (isLoading s) (error s) (finalPrice s) (isFinalizeModalOpen s) v (isSubmitting s) (pending s).
Definition setIsSubmitting v s := mkState (name s) (email s) (phone s) (region_sel s) (interests s) (duration s) (budget s) (itinerary s) (isLoading s) (error s) (finalPrice s) (isFinalizeModalOpen s) (isConfirmed s) v (pending s).
Definition setPending v s := mkState (name s) (email s) (phone s) (region_sel s) (interests s) (duration s) (budget s) (itinerary s) (isLoading s) (error s) (finalPrice s) (isFinalizeModalOpen s) (isConfirmed s) (isSubmitting s) v.

(** Registers a continuation ([await], [setTimeout]). *)
Definition schedule (p : Pending) (s : State) : State := setPending (pending s ++ [p]) s.

(** ** Handlers *)

(** [const isFormValid = name.trim() !== '' && email.trim() !== '' &&
    phone.trim() !== '' && region !== null] *)
Definition isFormValid (s : State) : bool :=
  negb (String.eqb (Js.trim (name s)) EmptyString) &&
  negb (String.eqb (Js.trim (email s)) EmptyString) &&
  negb (String.eqb (Js.trim (phone s)) EmptyString) &&
  match region_sel s with Some _ => true | None => false end.

(** [setRegion(r)] followed by the effect on [[region]], which empties the
    interests whenever the region changed. *)
Definition setRegion (r : option region) (s : State) : State :=
  let s' := mkState (name s) (email s) (phone s) r (interests s) (duration s) (budget s)
              (itinerary s) (isLoading s) (error s) (finalPrice s)
              (isFinalizeModalOpen s) (isConfirmed s) (isSubmitting s) (pending s) in
  if region_eqb (region_sel s) r then s' else setInterests [] s'.

Definition handleInterestChange (interest : Interest) (s : State) : State :=
  let newInterests := interests s in
  setInterests (if set_has newInterests interest
                then set_delete newInterests interest
                else set_add newInterests interest) s.

(** [x || 1] on a number: [NaN] and [0] are falsy. *)
Definition or_one (x : option Z) : Z :=
  match x with
  | None => 1
  | Some 0%Z => 1
  | Some n => n
  end.

(** [setDuration(Math.max(1, parseInt(e.target.value, 10) || 1))] *)
Definition onDurationChange (value : string) (s : State) : State :=
  setDuration (Z.max 1 (or_one (JsNumber.parseInt10 value))) s.

Definition msg_invalid : string :=
  "Veuillez choisir une destination et remplir vos coordonnées.".
Definition msg_failed : string :=
  "Une erreur est survenue lors de la génération de l'itinéraire. Veuillez réessayer.".

(** [handleSubmit] up to its [await]: the request and the [budget] and
    [duration] the continuation will price with are captured now. *)
Definition handleSubmit (s : State) : State :=
  if negb (isFormValid s) then setError (Some msg_invalid) s
  else match region_sel s with
       | Some r =>
           let request := mkItineraryParams r (map interest_label (interests s))
                            (duration s) (budget_label (budget s)) in
           schedule (PSubmit request (budget s) (duration s))
             (setFinalPrice None (setItinerary None (setError None (setIsLoading true s))))
       | None => s
       end.

(** [handleSubmit] after its [await]: the [try] body or the [catch], then
    the [finally]. *)
Definition submit_settled (res : Settled string) (budget : Budget) (duration : Z)
           (s : State) : State :=
  setIsLoading false
    (match res with
     | Fulfilled result =>
         let price := calculatePrice budget duration in
         setFinalPrice (Some price) (setItinerary (Some result) s)
     | Rejected _ => setError (Some msg_failed) s
     end).

Definition handleReset (s : State) : State :=
  setFinalPrice None (setIsLoading false (setError None (setItinerary None s))).

Definition handleFullReset (s : State) : State :=
  setInterests [] (setPhone EmptyString (setEmail EmptyString (setName EmptyString
    (setRegion None (handleReset s))))).

Definition handleConfirmBooking (s : State) : State :=
  schedule PReset (setIsConfirmed true (setIsFinalizeModalOpen false s)).

(** The 5 s timer of [handleConfirmBooking]. *)
Definition reset_timer (s : State) : State :=
  handleFullReset (setIsConfirmed false s).

(** Opening the dialog mounts it: its [isSubmitting] starts [false].
    Closing it unmounts it (it returns [null] before its hook), which
    discards that state. *)
Definition openFinalize (s : State) : State :=
  setIsSubmitting false (setIsFinalizeModalOpen true s).
Definition closeFinalize (s : State) : State :=
  setIsSubmitting false (setIsFinalizeModalOpen false s).

(** The dialog's [handleConfirm] and its 1.5 s timer, which calls
    [onConfirm] (= [handleConfirmBooking]) whether or not the dialog is
    still open. *)
Definition handleConfirm (s : State) : State :=
  schedule PPayment (setIsSubmitting true s).
Definition payment_timer (s : State) : State :=
  setIsSubmitting false (handleConfirmBooking s).

(** ** Events and the step function *)

Inductive Event :=
| ClickRegion (r : region)
| ChangeDestination
| InputName (v : string)
| InputEmail (v : string)
| InputPhone (v : string)
| ToggleInterest (i : Interest)
| InputDuration (v : string)
| ClickBudget (b : Budget)
| SubmitForm
| ClickFinalize
| ClickModify
| CloseModal
| ConfirmPayment
| CloseBanner
| Resolve (i : nat) (res : Settled string)
| PaymentDone
| ResetTimer.

Definition itinerary_truthy (s : State) : bool :=
  match itinerary s with Some t => Js.truthy_string t | None => false end.

(** The page under the dialog's full-screen overlay is not clickable. *)
Definition page_usable (s : State) : bool := negb (isFinalizeModalOpen s).

(** [{!itinerary ? <form> ...}] and [{!region ? <region buttons> : <fields>}] *)
Definition region_buttons_shown (s : State) : bool :=
  page_usable s && negb (itinerary_truthy s) &&
  match region_sel s with None => true | Some _ => false end.
Definition fields_shown (s : State) : bool :=
  page_usable s && negb (itinerary_truthy s) &&
  match region_sel s with None => false | Some _ => true end.
(** [{isLoading ? <spinner> : <price, itinerary, buttons>}] *)
Definition itinerary_view_shown (s : State) : bool :=
  page_usable s && itinerary_truthy s && negb (isLoading s).

(** The [i]-th pending continuation, removed from the list: responses
    of the API may come back in any order. *)
Fixpoint take_nth (i : nat) (l : list Pending) : option (Pending * list Pending) :=
  match l, i with
  | [], _ => None
  | p :: l', O => Some (p, l')
  | p :: l', S i' =>
      match take_nth i' l' with
      | Some (q, r) => Some (q, p :: r)
      | None => None
      end
  end.

(** Timers of the same delay fire in the order they were set: the first
    pending one of a kind. *)
Definition is_payment (p : Pending) : bool := match p with PPayment => true | _ => false end.
Definition is_reset (p : Pending) : bool := match p with PReset => true | _ => false end.

Fixpoint take (f : Pending -> bool) (l : list Pending) : option (list Pending) :=
  match l with
  | [] => None
  | p :: l' => if f p then Some l' else option_map (cons p) (take f l')
  end.

Definition guard (b : bool) (s : State) : option State := if b then Some s else None.

Definition step (s : State) (e : Event) : option State :=
  match e with
  | ClickRegion r => guard (region_buttons_shown s) (setRegion (Some r) s)
  | ChangeDestination => guard (fields_shown s) (setRegion None s)
  | InputName v => guard (fields_shown s) (setName v s)
  | InputEmail v => guard (fields_shown s) (setEmail v s)
  | InputPhone v => guard (fields_shown s) (setPhone v s)
  | ToggleInterest i =>
      guard (fields_shown s && set_has (interestOptions (region_sel s)) i)
            (handleInterestChange i s)
  | InputDuration v => guard (fields_shown s) (onDurationChange v s)
  | ClickBudget b => guard (fields_shown s) (setBudget b s)
  | SubmitForm =>
      (* [disabled={!isFormValid || isLoading}] *)
      guard (fields_shown s && isFormValid s && negb (isLoading s)) (handleSubmit s)
  | ClickFinalize => guard (itinerary_view_shown s) (openFinalize s)
  | ClickModify => guard (itinerary_view_shown s) (handleReset s)
  | CloseModal => guard (isFinalizeModalOpen s) (closeFinalize s)
  | ConfirmPayment =>
      guard (isFinalizeModalOpen s && negb (isSubmitting s)) (handleConfirm s)
  | CloseBanner => guard (isConfirmed s) (setIsConfirmed false s)
  | Resolve i res =>
      match take_nth i (pending s) with
      | Some (PSubmit _ b d, rest) => Some (submit_settled res b d (setPending rest s))
      | _ => None
      end
  | PaymentDone =>
      option_map (fun rest => payment_timer (setPending rest s)) (take is_payment (pending s))
  | ResetTimer =>
      option_map (fun rest => reset_timer (setPending rest s)) (take is_reset (pending s))
  end.

Fixpoint run_events (s : State) (es : list Event) : option State :=
  match es with
  | [] => Some s
  | e :: es' => match step s e with Some s' => run_events s' es' | None => None end
  end.

Inductive reachable : State -> Prop :=
| reachable_init : reachable init
| reachable_step s e s' : reachable s -> step s e = Some s' -> reachable s'.

(** The details the finalisation dialog shows (lines 262-267). *)
Record BookingDetails := mkDetails {
  d_name : string; d_email : string; d_phone : string; d_interests : list string;
  d_duration : Z; d_budget : string; d_region : string; d_price : option Z
}.

Definition region_label (r : option region) : string :=
  match r with Some Agadir => "Agadir" | Some Region => "Region" | None => EmptyString end.

Definition details (s : State) : BookingDetails :=
  mkDetails (name s) (email s) (phone s) (map interest_label (interests s)) (duration s)
            (budget_label (budget s)) (region_label (region_sel s)) (finalPrice s).

(** What the dialog displays of the details (modal lines 57-77). *)
Record Summary := mkSummary {
  shown_name : string; shown_email : string; shown_phone : string;
  shown_destination : string; shown_duration : Z; shown_budget : string;
  shown_interests : option string; shown_price : option Z
}.

(** [details.region === 'Region' ? 'Exploration de la région' : 'Agadir'] *)
Definition destination_text (d : BookingDetails) : string :=
  if String.eqb (d_region d) "Region" then "Exploration de la région" else "Agadir".

Definition summary (d : BookingDetails) : Summary :=
  mkSummary (d_name d) (d_email d) (d_phone d) (destination_text d) (d_duration d) (d_budget d)
    (* [details.interests.length > 0 && .. join(', ')] *)
    (match d_interests d with [] => None | l => Some (Js.join ", " l) end)
    (* [details.price && ..]: [null] and [0] show nothing *)
    (match d_price d with Some p => if Z.eqb p 0 then None else Some p | None => None end).

End TripForm.

(** ** Invariants of every reachable state *)

Section Invariants.
Import GeminiService Pricing TripForm.

(** The interests are those of the chosen region, without duplicates,
    and there are none while no region is chosen. *)
Definition inv_interests (s : State) : Prop :=
  (region_sel s = None -> interests s = []) /\
  incl (interests s) (interestOptions (region_sel s)) /\
  NoDup (interests s).

(** A captured submission: a well-typed request, priced later with the
    tier and the duration it was generated for. *)
Definition submission_ok (req : ItineraryParams) (b : Budget) (d : Z) : Prop :=
  request_typed req = true /\ GeminiService.budget req = budget_label b /\
  GeminiService.duration req = d.

(** The duration is at least one day, and every captured submission is
    well formed. *)
Definition inv_requests (s : State) : Prop :=
  (1 <= duration s)%Z /\
  forall req b d, In (PSubmit req b d) (pending s) -> submission_ok req b d.

(** A price is shown exactly when an itinerary is stored, and it is the
    price of a trip of at least one day. *)
Definition inv_price (s : State) : Prop :=
  (forall p, finalPrice s = Some p -> exists b d, (1 <= d)%Z /\ p = calculatePrice b d) /\
  match finalPrice s, itinerary s with
  | Some _, Some _ | None, None => True
  | _, _ => False
  end.

Definition inv (s : State) : Prop := inv_interests s /\ inv_requests s /\ inv_price s.

(** No submission appears in [l'] that was not in [l]. *)
Definition no_new_submit (l' l : list Pending) : Prop :=
  forall req b d, In (PSubmit req b d) l' -> In (PSubmit req b d) l.

(** Frame lemmas: a sub-invariant only reads some fields. *)
Lemma inv_interests_frame s s' :
  region_sel s' = region_sel s -> interests s' = interests s ->
  inv_interests s -> inv_interests s'.
Proof. unfold inv_interests. intros -> ->. exact id. Qed.

Lemma inv_interests_empty s : interests s = [] -> inv_interests s.
Proof.
  unfold inv_interests. intros ->. split; [reflexivity|]. split; [intros x []|constructor].
Qed.

Lemma inv_requests_frame s s' :
  duration s' = duration s -> no_new_submit (pending s') (pending s) ->
  inv_requests s -> inv_requests s'.
Proof.
  unfold inv_requests. intros -> Hp [Hd Hq]. split; [exact Hd|].
  intros req b d Hin. exact (Hq req b d (Hp _ _ _ Hin)).
Qed.

Lemma no_new_submit_refl l : no_new_submit l l.
Proof. intros ? ? ? H; exact H. Qed.

Lemma no_new_submit_incl l' l : incl l' l -> no_new_submit l' l.
Proof. intros H ? ? ? Hin; exact (H _ Hin). Qed.

Lemma no_new_submit_timer l p : p = PReset \/ p = PPayment -> no_new_submit (l ++ [p]) l.
Proof.
  intros Hp req b d Hin. apply in_app_or in Hin as [Hin|[E|[]]]; [exact Hin|].
  destruct Hp; congruence.
Qed.

Lemma inv_price_frame s s' :
  finalPrice s' = finalPrice s -> itinerary s' = itinerary s ->
  inv_price s -> inv_price s'.
Proof. unfold inv_price. intros -> ->. exact id. Qed.

Lemma inv_price_cleared s : finalPrice s = None -> itinerary s = None -> inv_price s.
Proof. unfold inv_price. intros -> ->. split; [discriminate|exact I]. Qed.

Lemma set_has_In l i : set_has l i = true <-> In i l.
Proof.
  unfold set_has. rewrite existsb_exists. split.
  - intros (j & Hj & E). destruct (Interest_eq_dec i j); [subst; exact Hj|discriminate].
  - intros H. exists i. split; [exact H|]. destruct (Interest_eq_dec i i); congruence.
Qed.

Lemma incl_set_delete l i o : incl l o -> incl (set_delete l i) o.
Proof. intros H x Hx. apply filter_In in Hx. exact (H x (proj1 Hx)). Qed.

Lemma NoDup_set_delete l i : NoDup l -> NoDup (set_delete l i).
Proof. apply NoDup_filter. Qed.

Lemma handleInterestChange_inv i s :
  region_sel s <> None -> In i (interestOptions (region_sel s)) ->
  inv_interests s -> inv_interests (handleInterestChange i s).
Proof.
  unfold inv_interests, handleInterestChange, set_add. simpl.
  intros Hr Hi (_ & Hincl & Hnd). split; [intros E; contradiction|].
  destruct (set_has (interests s) i) eqn:E; simpl.
  - split; [apply incl_set_delete, Hincl | apply NoDup_set_delete, Hnd].
  - split.
    + apply incl_app; [exact Hincl|]. intros x [<-|[]]. exact Hi.
    + apply NoDup_app; [exact Hnd | repeat constructor; intros [] |].
      intros x Hx [<-|[]]. apply set_has_In in Hx. congruence.
Qed.

Lemma region_eqb_eq a b : region_eqb a b = true -> a = b.
Proof. destruct a as [[]|], b as [[]|]; simpl; congruence. Qed.

Lemma setRegion_inv r s : inv_interests s -> inv_interests (setRegion r s).
Proof.
  unfold setRegion. destruct (region_eqb (region_sel s) r) eqn:E.
  - apply region_eqb_eq in E. subst r. apply inv_interests_frame; reflexivity.
  - intros _. apply inv_interests_empty. reflexivity.
Qed.

Lemma take_nth_spec i l p rest :
  take_nth i l = Some (p, rest) -> In p l /\ incl rest l.
Proof.
  revert i rest. induction l as [|q l IH]; intros i rest H; [destruct i; discriminate|].
  destruct i as [|i]; simpl in H.
  - injection H as <- <-. split; [left; reflexivity|]. intros x Hx; right; exact Hx.
  - destruct (take_nth i l) as [[p' r]|] eqn:E; [|discriminate].
    injection H as <- <-. destruct (IH i r E) as [Hin Hincl].
    split; [right; exact Hin|]. apply incl_cons; [left; reflexivity|].
    intros x Hx; right; exact (Hincl x Hx).
Qed.

Lemma take_incl f l rest : take f l = Some rest -> incl rest l.
Proof.
  revert rest. induction l as [|p l IH]; intros rest H; [discriminate|]. simpl in H.
  destruct (f p).
  - injection H as <-. intros x Hx; right; exact Hx.
  - destruct (take f l) as [r|] eqn:E; [|discriminate]. injection H as <-.
    apply incl_cons; [left; reflexivity|]. intros x Hx; right; exact (IH r eq_refl x Hx).
Qed.

Lemma submission_ok_duration req b d : submission_ok req b d -> (1 <= d)%Z.
Proof.
  intros (Ht & _ & <-). unfold request_typed in Ht.
  apply andb_prop in Ht as [_ Ht]. apply Z.leb_le, Ht.
Qed.

Lemma labels_typed (l o : list Interest) :
  incl l o ->
  forallb (fun i => existsb (String.eqb i) (map interest_label o)) (map interest_label l) = true.
Proof.
  intros H. apply forallb_forall. intros x Hx. apply in_map_iff in Hx as (i & <- & Hi).
  apply existsb_exists. exists (interest_label i). split; [apply in_map, H, Hi | apply String.eqb_refl].
Qed.

Lemma budget_label_typed b :
  existsb (String.eqb (budget_label b)) (map budget_label BUDGET_OPTIONS) = true.
Proof. destruct b; reflexivity. Qed.

Lemma handleSubmit_inv s : inv s -> inv (handleSubmit s).
Proof.
  intros (Hi & Hd & Hp). unfold handleSubmit.
  destruct (negb (isFormValid s)).
  - split; [|split].
    + apply inv_interests_frame with s; auto.
    + apply inv_requests_frame with s; [reflexivity | apply no_new_submit_refl | exact Hd].
    + apply inv_price_frame with s; auto.
  - destruct (region_sel s) as [r|] eqn:Er; [|exact (conj Hi (conj Hd Hp))].
    split; [|split].
    + apply inv_interests_frame with s; auto.
    + destruct Hd as [Hd1 Hd2]. split; [exact Hd1|]. simpl.
      intros req b d Hin. apply in_app_or in Hin as [Hin|[E|[]]]; [exact (Hd2 _ _ _ Hin)|].
      injection E as <- <- <-. split; [|split; reflexivity].
      unfold request_typed; cbn [GeminiService.budget GeminiService.interests
                                 GeminiService.duration region_of].
      rewrite budget_label_typed. destruct Hi as (_ & Hincl & _). rewrite Er in Hincl.
      rewrite (labels_typed _ _ Hincl). apply Z.leb_le, Hd1.
    + apply inv_price_cleared; reflexivity.
Qed.

Lemma submit_settled_inv res b d s :
  (1 <= d)%Z -> inv s -> inv (submit_settled res b d s).
Proof.
  intros Hd1 (Hi & Hd & Hp). split; [|split].
  - apply inv_interests_frame with s; [destruct res; reflexivity..|exact Hi].
  - apply inv_requests_frame with s; [destruct res; reflexivity | | exact Hd].
    destruct res; apply no_new_submit_refl.
  - destruct res as [result|e]; simpl.
    + split; [|exact I]. intros p E. injection E as <-. exists b, d. auto.
    + exact Hp.
Qed.

Lemma handleFullReset_inv s : inv s -> inv (handleFullReset s).
Proof.
  intros (Hi & Hd & Hp). unfold handleFullReset, setRegion.
  destruct (region_eqb _ _); (split; [|split];
    [ apply inv_interests_empty; reflexivity
    | apply inv_requests_frame with s; [reflexivity | apply no_new_submit_refl | exact Hd]
    | apply inv_price_cleared; reflexivity ]).
Qed.

Lemma inv_frame s s' :
  region_sel s' = region_sel s -> interests s' = interests s -> duration s' = duration s ->
  no_new_submit (pending s') (pending s) -> finalPrice s' = finalPrice s ->
  itinerary s' = itinerary s -> inv s -> inv s'.
Proof.
  intros Hr Hi Hd Hp Hf Ht (I1 & I2 & I3). split; [|split].
  - exact (inv_interests_frame s s' Hr Hi I1).
  - exact (inv_requests_frame s s' Hd Hp I2).
  - exact (inv_price_frame s s' Hf Ht I3).
Qed.

Lemma setRegion_inv_all r s : inv s -> inv (setRegion r s).
Proof.
  intros (I1 & I2 & I3). split; [apply setRegion_inv, I1|].
  unfold setRegion. destruct (region_eqb _ _); split;
    [ apply inv_requests_frame with s; [reflexivity | apply no_new_submit_refl | exact I2]
    | apply inv_price_frame with s; [reflexivity | reflexivity | exact I3]
    | apply inv_requests_frame with s; [reflexivity | apply no_new_submit_refl | exact I2]
    | apply inv_price_frame with s; [reflexivity | reflexivity | exact I3] ].
Qed.

Lemma setPending_inv rest s : incl rest (pending s) -> inv s -> inv (setPending rest s).
Proof.
  intros H. apply inv_frame; try reflexivity. apply no_new_submit_incl, H.
Qed.

Ltac open_guard H :=
  unfold guard in H;
  match type of H with
  | (if ?b then _ else _) = _ =>
      let G := fresh "G" in destruct b eqn:G; [injection H as <- | discriminate]
  end.

Ltac frame_close s :=
  apply inv_frame with s; simpl;
  first [ reflexivity | apply no_new_submit_refl
        | apply no_new_submit_timer; auto | idtac ].

(** Every event preserves the invariant. *)
Lemma step_inv s e s' : inv s -> step s e = Some s' -> inv s'.
Proof.
  intros Hinv Hstep. destruct e; simpl in Hstep.
  all: try (open_guard Hstep).
  all: try (frame_close s; assumption).
  - apply setRegion_inv_all, Hinv.
  - apply setRegion_inv_all, Hinv.
  - apply andb_prop in G as [G1 G2]. apply set_has_In in G2.
    unfold fields_shown in G1. destruct (region_sel s) eqn:Er; [|rewrite andb_false_r in G1; discriminate].
    destruct Hinv as (I1 & I2 & I3). split; [|split].
    + apply handleInterestChange_inv; [rewrite Er; discriminate | rewrite Er; exact G2 | exact I1].
    + apply inv_requests_frame with s; [reflexivity | apply no_new_submit_refl | exact I2].
    + apply inv_price_frame with s; [reflexivity | reflexivity | exact I3].
  - destruct Hinv as (I1 & [_ I2] & I3). split; [exact I1|]. split; [|exact I3].
    split; [simpl; lia | exact I2].
  - apply handleSubmit_inv, Hinv.
  - destruct Hinv as (I1 & I2 & I3). split; [exact I1|]. split; [exact I2|].
    apply inv_price_cleared; reflexivity.
  - destruct (take_nth i (pending s)) as [[[req b d| |] rest]|] eqn:E; try discriminate.
    injection Hstep as <-. destruct (take_nth_spec _ _ _ _ E) as [Hin Hincl].
    apply submit_settled_inv.
    + destruct Hinv as (_ & [_ I2] & _). exact (submission_ok_duration _ _ _ (I2 _ _ _ Hin)).
    + apply setPending_inv; assumption.
  - destruct (take is_payment (pending s)) as [rest|] eqn:E; [|discriminate].
    injection Hstep as <-. pose proof (setPending_inv rest s (take_incl _ _ _ E) Hinv) as Hinv'.
    apply inv_frame with (setPending rest s); try reflexivity; [|exact Hinv'].
    apply no_new_submit_timer; auto.
  - destruct (take is_reset (pending s)) as [rest|] eqn:E; [|discriminate].
    injection Hstep as <-. pose proof (setPending_inv rest s (take_incl _ _ _ E) Hinv) as Hinv'.
    apply handleFullReset_inv.
    apply inv_frame with (setPending rest s); try reflexivity; [apply no_new_submit_refl | exact Hinv'].
Qed.

Lemma init_inv : inv init.
Proof.
  split; [apply inv_interests_empty; reflexivity|]. split.
  - split; [simpl; lia | intros ? ? ? []].
  - apply inv_price_cleared; reflexivity.
Qed.

Lemma reachable_inv s : reachable s -> inv s.
Proof.
  induction 1 as [|s e s' _ IH Hstep]; [exact init_inv | exact (step_inv s e s' IH Hstep)].
Qed.

End Invariants.

(** ** Properties of the form *)

Section Properties.
Import GeminiService Pricing TripForm.

(** C8: Interests offered and kept always belong to the chosen region, with
    no duplicate, and none is kept while no region is chosen. *)
Theorem reachable_interests_valid (s : State) :
  reachable s ->
  incl (interests s) (interestOptions (region_sel s)) /\ NoDup (interests s) /\
  (region_sel s = None -> interests s = []).
Proof.
  intros H. destruct (reachable_inv s H) as ((I1 & I2 & I3) & _ & _). auto.
Qed.

Lemma setRegion_interests r s :
  interests (setRegion r s) = if region_eqb (region_sel s) r then interests s else [].
Proof. unfold setRegion. destruct (region_eqb _ _); reflexivity. Qed.

(** C20: Clicking an interest toggles exactly that interest: it is in the
    new selection if and only if it was not in the old one, and every
    other interest keeps its membership ([Set.has], [Set.delete],
    [Set.add] on a copy of the previous set). *)
Theorem handleInterestChange_toggle (i j : Interest) (s : State) :
  In j (interests (handleInterestChange i s)) <->
  (if Interest_eq_dec i j then ~ In i (interests s) else In j (interests s)).
Proof.
  unfold handleInterestChange, set_add, set_delete. cbn [interests setInterests].
  destruct (set_has (interests s) i) eqn:H;
    [apply set_has_In in H | apply not_true_iff_false in H; rewrite set_has_In in H];
    rewrite ?filter_In, ?in_app_iff; simpl;
    destruct (Interest_eq_dec i j) as [<-|Hne]; intuition congruence.
Qed.

(** C21: Choosing a destination and "Changer de destination" both leave the
    interest selection empty, whatever was selected before. *)
Theorem region_controls_clear_interests (s s' : State) (e : Event) :
  (e = ChangeDestination \/ exists r, e = ClickRegion r) ->
  step s e = Some s' -> interests s' = [].
Proof.
  intros He Hs.
  destruct He as [->|[r ->]]; simpl in Hs; unfold guard in Hs.
  - destruct (fields_shown s) eqn:G; [injection Hs as <-|discriminate].
    rewrite setRegion_interests. unfold fields_shown in G.
    destruct (region_sel s) as [[]|]; [reflexivity | reflexivity | rewrite andb_false_r in G; discriminate].
  - destruct (region_buttons_shown s) eqn:G; [injection Hs as <-|discriminate].
    rewrite setRegion_interests. unfold region_buttons_shown in G.
    destruct (region_sel s) as [[]|]; [rewrite andb_false_r in G; discriminate..|].
    reflexivity.
Qed.

(** C7: Every shown price belongs to a stored itinerary and is the price of
    a trip of at least one day, hence at least the one-day Économique
    price of 6600 MAD. *)
Theorem reachable_price (s : State) (p : Z) :
  reachable s -> finalPrice s = Some p ->
  itinerary s <> None /\ (6600 <= p)%Z /\
  exists b d, (1 <= d)%Z /\ p = calculatePrice b d.
Proof.
  intros Hr Hp. destruct (reachable_inv s Hr) as (_ & _ & [Hq Hsync]).
  destruct (Hq p Hp) as (b & d & Hd & ->). rewrite Hp in Hsync.
  split; [destruct (itinerary s); [discriminate | contradiction]|].
  split; [|eauto]. rewrite calculatePrice_day_rate. destruct b; cbn [day_rate]; lia.
Qed.

(** C22: The form always holds a duration of at least one day, whatever was
    typed in the field. *)
Theorem reachable_duration (s : State) : reachable s -> (1 <= duration s)%Z.
Proof. intros Hr. apply (reachable_inv s Hr). Qed.

(** C12: Every request the form has sent and not yet seen settle has the type
    the prompt builder expects of it: a [budget] among the three tiers,
    [interests] among those offered for its region, a duration of at least
    one day; and the tier and duration captured to price it are the ones
    of the request. *)
Theorem reachable_requests_typed (s : State) (req : ItineraryParams) (b : Budget) (d : Z) :
  reachable s -> In (PSubmit req b d) (pending s) ->
  request_typed req = true /\ GeminiService.budget req = budget_label b /\
  GeminiService.duration req = d.
Proof.
  intros Hr Hin. destruct (reachable_inv s Hr) as (_ & [_ H] & _). exact (H _ _ _ Hin).
Qed.

(** C23: Typing the decimal form of a positive number sets exactly that
    duration; anything else (the empty string, ["0"], ["-2"], ["abc"]) sets 1. *)
Theorem onDurationChange_typed (n : Z) (s : State) :
  (1 <= n)%Z -> duration (onDurationChange (JsNumber.numberToString n) s) = n.
Proof.
  intros Hn. unfold onDurationChange. simpl.
  rewrite <- (append_EmptyString (JsNumber.numberToString n)).
  rewrite parseInt10_numberToString by reflexivity.
  destruct n as [|p|p]; [lia | simpl; lia | lia].
Qed.

(** C24: An invalid submission only shows the validation message: no request
    is started and nothing else changes. *)
Theorem handleSubmit_invalid (s : State) :
  isFormValid s = false -> handleSubmit s = setError (Some msg_invalid) s.
Proof. intros H. unfold handleSubmit. rewrite H. reflexivity. Qed.

(** C25: A valid submission clears the previous itinerary and price, shows the
    spinner and starts one request carrying the form's values. *)
Theorem handleSubmit_valid (s : State) (r : region) :
  isFormValid s = true -> region_sel s = Some r ->
  let s' := handleSubmit s in
  itinerary s' = None /\ finalPrice s' = None /\ isLoading s' = true /\ error s' = None /\
  pending s' = pending s ++
    [PSubmit (mkItineraryParams r (map interest_label (interests s)) (duration s)
                (budget_label (budget s))) (budget s) (duration s)].
Proof. intros Hv Hr. unfold handleSubmit. rewrite Hv, Hr. simpl. auto 10. Qed.

(** C26: The 5 s timer after a confirmation empties the destination, the
    contact fields, the interests, the itinerary and the price, and hides
    the banner; the duration and the budget keep their values. *)
Theorem reset_timer_effect (s : State) :
  let s' := reset_timer s in
  region_sel s' = None /\ name s' = EmptyString /\ email s' = EmptyString /\
  phone s' = EmptyString /\ interests s' = [] /\ itinerary s' = None /\
  finalPrice s' = None /\ isLoading s' = false /\ isConfirmed s' = false /\
  duration s' = duration s /\ budget s' = budget s.
Proof.
  unfold reset_timer, handleFullReset, setRegion. simpl.
  destruct (region_eqb _ _); simpl; repeat split.
Qed.

End Properties.
