(* ===== verification/View.v ===== *)
(** * View: what the presentation components render

    The markup of [src/components/About.tsx], [Header.tsx],
    [ConfirmationBanner.tsx], [src/docs/components/Footer.tsx],
    [LoadingSpinner.tsx], [ServiceCard.tsx],
    [BookingFinalizationModal.tsx], of the page [src/docs/App.tsx] and of
    the overlays at the end of [src/components/ServicesSection.tsx], as trees of [Node]s: an element with its tag, the
    attributes that carry content or behaviour ([href], [src], [alt],
    [id], [role], [aria-*], the [style] values the code computes), its
    click handler and its children, or a text.  Class names and fixed
    styles are left out, and icons are [svg] elements without their
    paths.  A callback prop ([onClose], [onSelect]) becomes the handler
    of the element that calls it, so the type of handlers is a parameter.

    [shown_backgrounds] is what the header shows: the background images
    of its elements at opacity 1.  The theorem [rendered_carousel]: after
    [n] ticks of the interval the rendered header shows the image of
    service [n mod 8] and no other. *)

From Stdlib Require Import String Ascii ZArith QArith List Bool Lia.
From S2P Require Import Prelude Async JsNumber Gemini App Header TripForm.
Import ListNotations.
Local Open Scope string_scope.

Module View.

Inductive Node (A : Type) : Type :=
| Text (s : string)
| Elem (tag : string) (attrs : list (string * string)) (onClick : option A)
       (children : list (Node A)).
Arguments Text {A}.
Arguments Elem {A}.

(** An element without handler. *)
Definition el {A} (tag : string) (attrs : list (string * string)) (children : list (Node A)) : Node A :=
  Elem tag attrs None children.

(** An icon: an [svg] element (its paths are not modelled). *)
Definition icon {A} : Node A := el "svg" [] [].

(** The text nodes, in document order. *)
(** [LoadingSpinner]: two nested [div]s, the inner one spinning. *)
Definition LoadingSpinner {A} : Node A := el "div" [] [el "div" [] []].

(** [About({ aboutText })] *)
Definition About {A} (aboutText : string) : Node A :=
  el "section" [("id", "about")]
    [el "h2" [] [Text "L'Agence"];
     el "div" [] [el "p" [] [Text aboutText]]].

(** [SocialIcon] and [Footer]; [year] is [new Date().getFullYear()]. *)
Definition SocialIcon {A} (href : string) (children : list (Node A)) : Node A :=
  el "a" [("href", href); ("target", "_blank"); ("rel", "noopener noreferrer")] children.

Definition instagram_url : string :=
  "https://www.instagram.com/nerza.agency?utm_source=ig_web_button_share_sheet&igsh=MWV4eXk2ZDFjMnhmYg==".
Definition tiktok_url : string :=
  "https://www.tiktok.com/@nerza_agency.ma?is_from_webapp=1&sender_device=pc".

Definition Footer {A} (year : Z) : Node A :=
  el "footer" []
    [el "div" []
       [el "p" [] [Text "Nerza Agency"];
        el "div" [] [SocialIcon instagram_url [icon]; SocialIcon tiktok_url [icon]];
        el "p" [] [Text "© "; Text (JsNumber.numberToString year);
                   Text " Nerza Agency. Tous droits réservés."]]].

(** [ConfirmationBanner({ onClose })] *)
Definition ConfirmationBanner {A} (onClose : A) : Node A :=
  el "div" []
    [icon;
     el "span" [] [Text "Réservation confirmée ! Vous recevrez un email de confirmation."];
     Elem "button" [] (Some onClose) [icon]].

(** [ServiceCard({ service, onSelect })] *)
Definition ServiceCard {A} (service : Header.Service) (onSelect : Header.Service -> A) : Node A :=
  el "div" []
    [el "div" [] [el "img" [("src", Header.imageUrl service); ("alt", Header.title service)] [];
                  el "div" [] []];
     el "div" []
       [el "h3" [] [Text (Header.title service)];
        el "p" [] [Text (Header.description service)];
        Elem "button" [] (Some (onSelect service)) [Text "Choisir"]]].

(** The carousel's background images, numbered from [i]. *)
Fixpoint carousel_from {A} (i currentImageIndex : Z) (l : list Header.Service) : list (Node A) :=
  match l with
  | [] => []
  | service :: l' =>
      el "div" [("style.backgroundImage", "url(" ++ Header.imageUrl service ++ ")");
                ("style.opacity", if Z.eqb i currentImageIndex then "1" else "0")] []
        :: carousel_from (i + 1) currentImageIndex l'
  end.

(** [Header({ tagline, isLoading })] with its [currentImageIndex]. *)
Definition HeaderView {A} (tagline : string) (isLoading : bool) (currentImageIndex : Z) : Node A :=
  el "header" []
    (app (carousel_from 0 currentImageIndex Header.SERVICES)
     [el "div" [] [];
      el "div" []
        [el "h1" [] [Text "Nerza Agency"];
         el "div" []
           [match Header.title_block tagline isLoading with
            | Header.Spinner => LoadingSpinner
            | Header.Tagline t => el "p" [] [Text t]
            end]];
      el "div" [] [icon]]).

Definition aboutText : string :=
  "Nous concevons des séjours sur-mesure, invitant jeunes adultes, couples et voyageurs internationaux à découvrir des facettes exclusives du pays. Accédez à des activités uniques, loin des sentiers battus, pour une immersion authentique et élégante.".

(** [App]: the header, the error line [{error && <p>{error}</p>}], the
    agency text, the form [services] (rendered by [ServicesSection]) and
    the footer. *)
Definition AppView {A} (s : App.State) (currentImageIndex : Z) (services : Node A) (year : Z)
    : Node A :=
  el "div" []
    [HeaderView (App.tagline s) (App.isLoading s) currentImageIndex;
     el "main" []
       (match App.error s with
        | Some e => if Js.truthy_string e then [el "p" [] [Text e]] else []
        | None => []
        end ++ [About aboutText; services])%list;
     Footer year].

(** [disabled={b}]: React writes the attribute only when [b] is true. *)
Definition disabled_attr (b : bool) : list (string * string) :=
  if b then [("disabled", "")] else [].

(** A labelled line of the dialog: [<p><strong>label</strong> value</p>]. *)
Definition line {A} (label : string) (value : list (Node A)) : Node A :=
  el "p" [] (el "strong" [] [Text label] :: Text " " :: value).

Section Dialog.
(** [new Intl.NumberFormat('fr-MA', { style: 'currency', currency: 'MAD',
    minimumFractionDigits: 0 }).format]: the locale's formatting is not
    modelled. *)
Context (formatMAD : Z -> string).

(** [BookingFinalizationModal({ isOpen, onClose, onConfirm, details })],
    with the dialog's [isSubmitting] hook and [handleConfirm], which the
    confirm button calls.  [if (!isOpen) return null]. *)
Definition BookingFinalizationModal {A} (isOpen : bool) (onClose handleConfirm : A)
    (details : TripForm.BookingDetails) (isSubmitting : bool) : option (Node A) :=
  if negb isOpen then None else
  let sm := TripForm.summary details in
  Some (el "div" [("role", "dialog"); ("aria-modal", "true"); ("aria-labelledby", "modal-title")]
   [el "div" []
    [Elem "button" [("aria-label", "Fermer la fenêtre")] (Some onClose) [icon];
     el "div" []
       [el "p" [] [Text "NERZA"];
        el "h2" [("id", "modal-title")] [Text "Finalisation de la réservation"];
        el "p" [] [Text "Veuillez vérifier les informations de votre future aventure avant de continuer."]];
     el "div" []
       [el "div" [] [el "div" []
         [el "div" []
            [el "h3" [] [Text "Vos Coordonnées"];
             line "Nom :" [Text (TripForm.shown_name sm)];
             line "Email :" [Text (TripForm.shown_email sm)];
             line "Téléphone :" [Text (TripForm.shown_phone sm)]];
          el "div" []
            ([el "h3" [] [Text "Préférences de Voyage"];
              line "Destination :" [Text (TripForm.shown_destination sm)];
              line "Durée :" [Text (JsNumber.numberToString (TripForm.shown_duration sm)); Text " jours"];
              line "Budget :" [Text (TripForm.shown_budget sm)]] ++
             match TripForm.shown_interests sm with
             | Some l => [line "Intérêts :" [Text l]]
             | None => []
             end)%list;
          el "div" [] [el "div" []
            (el "h3" [] [Text "Prix Total Estimé"] ::
             (* [{details.price && (<p>..</p>)}]: a price of [0] is
                rendered as the text "0" *)
             match TripForm.d_price details with
             | Some p => if Z.eqb p 0 then [Text "0"] else [el "p" [] [Text (formatMAD p)]]
             | None => []
             end)]]];
        el "div" []
          [el "div" []
             [el "h3" [] [icon; Text "Ce qui est inclus"];
              el "ul" [] [el "li" [] [Text "Hébergement sélectionné"];
                          el "li" [] [Text "Transport privé et transferts"];
                          el "li" [] [Text "Activités de l'itinéraire"]]];
           el "div" []
             [el "h3" [] [icon; Text "Ce qui n'est pas inclus"];
              el "ul" [] [el "li" [] [Text "Repas et boissons"];
                          el "li" [] [Text "Dépenses personnelles"];
                          el "li" [] [Text "Pourboires"]]]]];
     el "div" []
       [Elem "button" (disabled_attr isSubmitting) (Some handleConfirm)
          ((if isSubmitting then [icon] else []) ++
           [el "span" [] [Text (if isSubmitting then "Traitement..." else "Confirmer et Payer (Simulation)")]])%list;
        el "p" [] [Text "🔒 Ceci est une simulation. Aucune transaction réelle ne sera effectuée."]]]]).

(** The end of [ServicesSection]'s markup (lines 262-269): the dialog,
    given the form's state, and [{isConfirmed && <ConfirmationBanner
    onClose={() => setIsConfirmed(false)} />}].  The handlers are the
    events of [TripForm.step] the clicks produce. *)
Definition overlays (s : TripForm.State) : list (Node TripForm.Event) :=
  (match BookingFinalizationModal (TripForm.isFinalizeModalOpen s) TripForm.CloseModal
           TripForm.ConfirmPayment (TripForm.details s) (TripForm.isSubmitting s) with
   | Some n => [n]
   | None => []
   end ++
   if TripForm.isConfirmed s then [ConfirmationBanner TripForm.CloseBanner] else [])%list.

End Dialog.

(** The value of the attribute [k]. *)
Definition attr (k : string) (attrs : list (string * string)) : option string :=
  option_map snd (find (fun a => String.eqb (fst a) k) attrs).

(** The background image an element shows: its [style.backgroundImage]
    when its [style.opacity] is [1]. *)
Definition shown_background {A} (n : Node A) : list string :=
  match n with
  | Text _ => []
  | Elem _ a _ _ =>
      match attr "style.opacity" a, attr "style.backgroundImage" a with
      | Some o, Some u => if String.eqb o "1" then [u] else []
      | _, _ => []
      end
  end.

(** The background images the header shows. *)
Definition shown_backgrounds {A} (n : Node A) : list string :=
  match n with Text _ => [] | Elem _ _ _ cs => flat_map shown_background cs end.

End View.

(** ** What the views show *)

Section CarouselTheorems.
Import View Header.
Context {A : Type}.

Lemma carousel_shown (l : list Service) (i c : Z) :
  flat_map shown_background (carousel_from (A:=A) i c l) =
  match (if Z.leb i c then nth_error l (Z.to_nat (c - i)) else None) with
  | Some sv => ["url(" ++ imageUrl sv ++ ")"]
  | None => []
  end.
Proof.
  revert i. induction l as [|x l IH]; intros i.
  - simpl. destruct (Z.leb i c), (Z.to_nat (c - i)); reflexivity.
  - cbn [carousel_from flat_map]. rewrite IH.
    destruct (Z.eqb_spec i c) as [->|Hne]; unfold shown_background, attr; simpl.
    + rewrite Z.leb_refl, Z.sub_diag. destruct (Z.leb_spec (c + 1) c); [lia|]. reflexivity.
    + destruct (Z.leb_spec (i + 1) c), (Z.leb_spec i c); try lia; simpl; [|reflexivity].
      replace (Z.to_nat (c - i)) with (S (Z.to_nat (c - (i + 1)))) by lia. reflexivity.
Qed.

(** C31: The rendered header: after [n] firings of the 5 s interval,
    whatever the tagline and the loading flag, exactly one background
    image is visible, and it is the image of service [n mod 8]. *)
Theorem rendered_carousel (n : nat) (tagline : string) (isLoading : bool) :
  exists sv, nth_error SERVICES (n mod 8) = Some sv /\
    shown_backgrounds (HeaderView (A:=A) tagline isLoading (after_ticks n)) =
    ["url(" ++ imageUrl sv ++ ")"].
Proof.
  assert (Hn : (n mod 8 < length SERVICES)%nat) by (apply Nat.mod_upper_bound; discriminate).
  destruct (nth_error SERVICES (n mod 8)) as [sv|] eqn:Hsv;
    [|apply nth_error_None in Hsv; lia].
  exists sv. split; [reflexivity|].
  unfold HeaderView, el, shown_backgrounds. rewrite flat_map_app, carousel_shown, after_ticks_mod8.
  change 8%Z with (Z.of_nat 8). rewrite <- Nat2Z.inj_mod, Z.sub_0_r, Nat2Z.id, Hsv.
  destruct (Z.leb_spec 0 (Z.of_nat (n mod 8))); [|lia].
  destruct (title_block tagline isLoading); reflexivity.
Qed.

End CarouselTheorems.
