(* ===== verification/TripRuns.v ===== *)
(** * TripRuns: executions of the form

    Concrete event sequences of [TripForm.step], evaluated by computation:
    four executions that show behaviours the specification rules out (a
    booking confirmed with empty contact details, two generation requests
    in flight, a quote for another duration than the one booked, and a
    booking confirmed after its dialog was closed), and the instances of
    the form's theorems at reachable states. *)

From Stdlib Require Import String ZArith QArith List Bool Lia.
From S2P Require Import Prelude Async JsNumber Gemini Pricing TripForm.
Import ListNotations.

Section Runs.
Import GeminiService Pricing TripForm.
Local Open Scope string_scope.

(** The state an event sequence leads to from [init] (or [init] when an
    event is not enabled). *)
Definition after (es : list Event) : State :=
  match run_events init es with Some s => s | None => init end.

Definition fill_contact : list Event :=
  [ClickRegion Agadir; InputName "Amal"; InputEmail "amal@example.ma"; InputPhone "+212600000000"].

(** Executions outside the specification. *)
Definition blank_booking : list Event :=
  fill_contact ++
  [SubmitForm; Resolve 0%nat (Fulfilled "### Jour 1"); ClickFinalize; ConfirmPayment; PaymentDone;
   ClickModify; SubmitForm; ResetTimer; Resolve 0%nat (Fulfilled "### Jour 1"); ClickFinalize].

Definition double_request : list Event :=
  fill_contact ++
  [SubmitForm; Resolve 0%nat (Fulfilled "### Jour 1"); ClickFinalize; ConfirmPayment; PaymentDone;
   ClickModify; SubmitForm; ResetTimer] ++ fill_contact ++ [SubmitForm].

Definition stale_quote : list Event :=
  fill_contact ++ [SubmitForm; InputDuration "10"; Resolve 0%nat (Fulfilled "### Jour 1"); ClickFinalize].

Definition cancelled_payment : list Event :=
  fill_contact ++ [SubmitForm; Resolve 0%nat (Fulfilled "### Jour 1"); ClickFinalize; ConfirmPayment;
                   CloseModal; PaymentDone].

(** Sequences for the instances of the form's theorems. *)
Definition with_interests : list Event :=
  fill_contact ++ [ToggleInterest SurfSportsNautiques; ToggleInterest GolfResorts;
                   ToggleInterest SurfSportsNautiques; ToggleInterest FarnientePlage].

Definition priced : list Event := fill_contact ++ [SubmitForm; Resolve 0%nat (Fulfilled "### Jour 1")].

(** ** Runs from the initial state *)

Lemma run_events_reachable (s : State) (es : list Event) (s' : State) :
  reachable s -> run_events s es = Some s' -> reachable s'.
Proof.
  revert s. induction es as [|e es IH]; intros s Hr H; simpl in H.
  - injection H as <-. exact Hr.
  - destruct (step s e) as [s1|] eqn:E; [|discriminate].
    exact (IH s1 (reachable_step s e s1 Hr E) H).
Qed.

Lemma after_reachable (es : list Event) :
  run_events init es <> None -> reachable (after es).
Proof.
  unfold after. destruct (run_events init es) as [s|] eqn:E; [|contradiction].
  intros _. exact (run_events_reachable init es s reachable_init E).
Qed.

(** ** Behaviours outside the specification *)

(** C9: The 5 s reset timer of a confirmed booking is never cancelled.  If
    the user clicks "Modifier mes préférences" and submits again before
    it fires, it clears the form during generation, the result then
    arrives on an empty form, and the booking dialog can be opened and
    confirmed with no name, email, phone or destination; the dialog then
    displays "Agadir" as the destination of a booking that has none. *)
Theorem booking_dialog_with_blank_contact :
  let s := after blank_booking in
  reachable s /\ isFinalizeModalOpen s = true /\ isSubmitting s = false /\
  isFormValid s = false /\ d_name (details s) = EmptyString /\
  d_region (details s) = EmptyString /\ d_price (details s) = Some 26880%Z /\
  shown_destination (summary (details s)) = "Agadir" /\
  exists s', run_events s [ConfirmPayment; PaymentDone] = Some s' /\ isConfirmed s' = true.
Proof.
  split; [apply after_reachable; vm_compute; discriminate|].
  vm_compute. repeat split. eexists. split; reflexivity.
Qed.

(** C10: The same timer re-enables "Générer" while a request is in flight:
    two generation requests are pending at once, the guard of the
    specification against re-entrant submissions does not hold. *)
Theorem two_requests_in_flight :
  let s := after double_request in
  reachable s /\ isLoading s = true /\
  length (filter (fun p => match p with PSubmit _ _ _ => true | _ => false end) (pending s)) = 2%nat.
Proof.
  split; [apply after_reachable; vm_compute; discriminate|].
  vm_compute. split; reflexivity.
Qed.

(** C27: The form stays editable while the itinerary is generated; the price
    is computed with the duration captured at submission, so the dialog
    shows a duration of 10 days with the price of 3 days. *)
Theorem quote_for_another_duration :
  let s := after stale_quote in
  reachable s /\ isFinalizeModalOpen s = true /\
  d_duration (details s) = 10%Z /\ d_price (details s) = Some (calculatePrice Confort 3) /\
  d_price (details s) <> Some (calculatePrice (budget s) (d_duration (details s))).
Proof.
  split; [apply after_reachable; vm_compute; discriminate|].
  vm_compute. repeat split. discriminate.
Qed.

(** C28: Closing the dialog during the simulated payment does not cancel it:
    the 1.5 s timer still confirms the booking. *)
Theorem closing_dialog_does_not_cancel :
  let s := after cancelled_payment in
  reachable s /\ isConfirmed s = true /\ isFinalizeModalOpen s = false /\
  nth_error (rev cancelled_payment) 1 = Some CloseModal.
Proof.
  split; [apply after_reachable; vm_compute; discriminate|].
  repeat split; reflexivity.
Qed.

(** ** Instances of the form's theorems *)

Lemma reachable_interests_valid_witness :
  reachable (after with_interests) /\
  incl (interests (after with_interests)) (interestOptions (region_sel (after with_interests))) /\
  NoDup (interests (after with_interests)) /\
  (region_sel (after with_interests) = None -> interests (after with_interests) = []).
Proof.
  assert (H : reachable (after with_interests)) by (apply after_reachable; vm_compute; discriminate).
  split; [exact H | exact (reachable_interests_valid _ H)].
Defined.

Lemma region_controls_clear_interests_witness :
  step (after with_interests) ChangeDestination = Some (setRegion None (after with_interests)) /\
  interests (setRegion None (after with_interests)) = [].
Proof.
  assert (H : step (after with_interests) ChangeDestination
              = Some (setRegion None (after with_interests))) by (vm_compute; reflexivity).
  split; [exact H|].
  exact (region_controls_clear_interests _ _ ChangeDestination (or_introl eq_refl) H).
Defined.

Lemma reachable_price_witness :
  finalPrice (after priced) = Some 26880%Z /\
  itinerary (after priced) <> None /\ (6600 <= 26880)%Z /\
  exists b d, (1 <= d)%Z /\ 26880%Z = calculatePrice b d.
Proof.
  assert (H : finalPrice (after priced) = Some 26880%Z) by (vm_compute; reflexivity).
  split; [exact H|].
  apply (reachable_price (after priced) 26880%Z); [|exact H].
  apply after_reachable; vm_compute; discriminate.
Defined.

Lemma reachable_requests_typed_witness :
  reachable (after (fill_contact ++ [SubmitForm])) /\
  In (PSubmit (mkItineraryParams Agadir [] 3 "Confort") Confort 3)
     (pending (after (fill_contact ++ [SubmitForm]))) /\
  request_typed (mkItineraryParams Agadir [] 3 "Confort") = true /\
  GeminiService.budget (mkItineraryParams Agadir [] 3 "Confort") = budget_label Confort /\
  GeminiService.duration (mkItineraryParams Agadir [] 3 "Confort") = 3%Z.
Proof.
  assert (Hr : reachable (after (fill_contact ++ [SubmitForm])))
    by (apply after_reachable; vm_compute; discriminate).
  assert (Hin : In (PSubmit (mkItineraryParams Agadir [] 3 "Confort") Confort 3)
                   (pending (after (fill_contact ++ [SubmitForm])))) by (vm_compute; left; reflexivity).
  split; [exact Hr|]. split; [exact Hin|].
  exact (reachable_requests_typed _ _ _ _ Hr Hin).
Defined.

Lemma reachable_duration_witness :
  reachable (after stale_quote) /\ (1 <= duration (after stale_quote))%Z.
Proof.
  assert (H : reachable (after stale_quote)) by (apply after_reachable; vm_compute; discriminate).
  split; [exact H | exact (reachable_duration _ H)].
Defined.

Lemma onDurationChange_typed_witness :
  (1 <= 7)%Z /\ duration (onDurationChange (JsNumber.numberToString 7) init) = 7%Z.
Proof. split; [lia | apply onDurationChange_typed; lia]. Defined.

Lemma handleSubmit_invalid_witness :
  isFormValid init = false /\ handleSubmit init = setError (Some msg_invalid) init.
Proof.
  assert (H : isFormValid init = false) by reflexivity.
  split; [exact H | exact (handleSubmit_invalid init H)].
Defined.

Lemma handleSubmit_valid_witness :
  isFormValid (after fill_contact) = true /\ region_sel (after fill_contact) = Some Agadir /\
  let s' := handleSubmit (after fill_contact) in
  itinerary s' = None /\ finalPrice s' = None /\ isLoading s' = true /\ error s' = None /\
  pending s' = (pending (after fill_contact) ++
    [PSubmit (mkItineraryParams Agadir (map interest_label (interests (after fill_contact)))
                (duration (after fill_contact)) (budget_label (budget (after fill_contact))))
             (budget (after fill_contact)) (duration (after fill_contact))])%list.
Proof.
  assert (H1 : isFormValid (after fill_contact) = true) by (vm_compute; reflexivity).
  assert (H2 : region_sel (after fill_contact) = Some Agadir) by (vm_compute; reflexivity).
  split; [exact H1|]. split; [exact H2|].
  exact (handleSubmit_valid (after fill_contact) Agadir H1 H2).
Defined.

End Runs.
